(** * mindcanvas: the prompt maker ([code_traverser.py])

    A shallow embedding of the five functions of [code_traverser.py]
    ([get_file_content], [valid_filename], [extract_file_details],
    [write_to_file], [create_prompt_file]) and of the parts of the Python
    library they call ([str.endswith], [in], [os.path.join],
    [os.path.splitext], [str.strip], [os.walk], [open]), followed by the
    properties of the aggregator.

    Paths follow [posixpath]: the separator is [/].  Python strings are
    modelled as [string]: the strings of characters that the encodings in
    use (of file names, of the console, of the output file) can encode.  A
    string with a NUL character in it is not a path: the operating system
    finds nothing at it, and [os.walk] raises [ValueError] for it. *)

From Stdlib Require Import String Ascii List Bool Arith ZArith Lia.
From stdpp Require Import base option gmap strings.
Import ListNotations.

Local Open Scope string_scope.
Local Open Scope bool_scope.
Local Open Scope list_scope.

(** ** Python string primitives *)

Module Str.

(** The line feed written [\n] in the source. *)
Definition nl : string := String (ascii_of_nat 10) EmptyString.

(** [s.startswith(pre)]. *)
Definition startswith (s pre : string) : bool := String.prefix pre s.

(** [s.endswith(suf)]: the last [len(suf)] characters of [s] are [suf]. *)
Definition endswith (s suf : string) : bool :=
  let n := String.length s in
  let k := String.length suf in
  (k <=? n)%nat && String.eqb (String.substring (n - k) k s) suf.

(** [sub in s]: [sub] starts at some position of [s]. *)
Fixpoint contains (sub s : string) : bool :=
  String.prefix sub s
  || match s with
     | EmptyString => false
     | String _ s' => contains sub s'
     end.

(** [s.lstrip(c)] and [s.rstrip(c)] for a one-character set, and
    [s.strip(c)], which does both. *)
Fixpoint lstrip (c : ascii) (s : string) : string :=
  match s with
  | EmptyString => EmptyString
  | String a s' => if Ascii.eqb a c then lstrip c s' else s
  end.

Fixpoint rstrip (c : ascii) (s : string) : string :=
  match s with
  | EmptyString => EmptyString
  | String a s' =>
      match rstrip c s' with
      | EmptyString => if Ascii.eqb a c then EmptyString else String a EmptyString
      | r => String a r
      end
  end.

Definition strip (c : ascii) (s : string) : string := rstrip c (lstrip c s).

(** [s.rfind(c)] for a one-character [c]: the highest index of [c] in
    [s], counted from [i] for the first character, or [-1]. *)
Fixpoint rfind_from (c : ascii) (s : string) (i : Z) : Z :=
  match s with
  | EmptyString => (-1)%Z
  | String a s' =>
      let r := rfind_from c s' (i + 1)%Z in
      if (0 <=? r)%Z then r else if Ascii.eqb a c then i else (-1)%Z
  end.

Definition rfind (c : ascii) (s : string) : Z := rfind_from c s 0%Z.

(** The slices [s[:i]] and [s[i:]] for [0 <= i]. *)
Fixpoint take (i : nat) (s : string) : string :=
  match i, s with
  | S i', String a s' => String a (take i' s')
  | _, _ => EmptyString
  end.

Fixpoint drop (i : nat) (s : string) : string :=
  match i, s with
  | S i', String _ s' => drop i' s'
  | _, _ => s
  end.

(** Whether the character [c] is one of the characters of [s]. *)
Fixpoint has_char (c : ascii) (s : string) : bool :=
  match s with
  | EmptyString => false
  | String a s' => Ascii.eqb a c || has_char c s'
  end.

(** What the claims say about strings: [s] ends with [suf], [sub] occurs
    in [s]. *)
Definition ends_with (s suf : string) : Prop := exists pre, s = pre +:+ suf.
Definition occurs (sub s : string) : Prop := exists a b, s = a +:+ sub +:+ b.

End Str.

(** ** The selection predicate *)

Definition extensions : list string :=
  [".jsx"; ".js"; ".ts"; ".tsx"; ".json"; ".html"; ".css"; ".scss"].

Definition valid_filename (file_name : string) : bool :=
  let flag := existsb (fun ext => Str.endswith file_name ext) extensions in
  let flag := flag && negb (Str.contains "node_modules" file_name) in
  let flag := flag && negb (Str.contains "package-lock" file_name) in
  let flag := flag && negb (Str.contains "README" file_name) in
  flag.

(** ** [os.path] *)

(** [os.path.join(a, b)]. *)
Definition join (a b : string) : string :=
  if Str.startswith b "/" then b
  else if String.eqb a "" || Str.endswith a "/" then a +:+ b
  else a +:+ "/" +:+ b.

(** The loop of [os.path.splitext] that skips the leading dots of the file
    name: it runs while [filenameIndex < dotIndex], here for the [n] indices
    that remain, and answers [true] as soon as [p[filenameIndex]] is not a
    dot (the source returns the split there). *)
Fixpoint skip_leading_dots (p : string) (filenameIndex : Z) (n : nat) : bool :=
  match n with
  | O => false
  | S n' =>
      if negb (String.eqb (String.substring (Z.to_nat filenameIndex) 1 p) ".")
      then true
      else skip_leading_dots p (filenameIndex + 1)%Z n'
  end.

(** [os.path.splitext(p)]: the pair (root, ext). *)
Definition splitext (p : string) : string * string :=
  let sepIndex := Str.rfind "/" p in
  let dotIndex := Str.rfind "." p in
  if (sepIndex <? dotIndex)%Z
     && skip_leading_dots p (sepIndex + 1)%Z (Z.to_nat (dotIndex - (sepIndex + 1)))
  then (Str.take (Z.to_nat dotIndex) p, Str.drop (Z.to_nat dotIndex) p)
  else (p, "").

(** ** Errors, the file system and the state of a run *)

Inductive exn : Set :=
| OSError
| UnicodeDecodeError
| ValueError.

Inductive result (A : Type) : Type :=
| Ok (a : A)
| Raise (e : exn).
Arguments Ok {A} a.
Arguments Raise {A} e.

(** What the walk meets under a name.  A file carries what
    [open(path, 'r')] followed by [read()] gives for it: its text, or the
    error raised.  [Sealed] is a directory the walk lists among [dirs] but
    does not enter: one whose listing fails, or a symbolic link to a
    directory. *)
#[warnings="-register-all"]
Inductive node : Type :=
| File (content : result string)
| Dir (entries : list (string * node))
| Sealed.

(** A string the operating system takes for a path: one without NUL
    character. *)
Definition valid_path (p : string) : bool := negb (Str.has_char "000" p).

(** The file system as a run finds it: the directory trees, by path, and
    the paths that can be opened for writing.  It is what the run reads;
    what the run writes goes to the [disk] of the [world] below, and a
    later run sees it when, and as far as, the file system handed to that
    run holds it. *)
Record filesystem : Type := {
  tree_at : string -> option node;
  writable : string -> bool
}.

(** What the operating system finds at the path given to [os.walk]
    ([None]: nothing there, or not a path). *)
Definition resolve (fs : filesystem) (p : string) : option node :=
  if valid_path p then tree_at fs p else None.

(** What a run changes: the text of the files it writes, under the path
    string each was opened with (two strings that name one file are not
    identified: the properties below speak of one output path at a time),
    and what it prints: the text of each call of [print], in order (the
    console shows each followed by a line feed). *)
Record world : Type := {
  disk : gmap string string;
  stdout : list string
}.

(** A computation that may raise and that changes the world; what was done
    before an exception stays done. *)
Definition M (A : Type) : Type := world -> result A * world.

Definition ret {A} (a : A) : M A := fun w => (Ok a, w).

Definition raise {A} (e : exn) : M A := fun w => (Raise e, w).

Definition bind {A B} (m : M A) (k : A -> M B) : M B :=
  fun w =>
    match m w with
    | (Ok a, w') => k a w'
    | (Raise e, w') => (Raise e, w')
    end.

Declare Scope py_scope.
Delimit Scope py_scope with py.
Notation "x <- m ;; k" := (bind m (fun x => k))
  (at level 100, m at next level, right associativity) : py_scope.
Notation "m ;; k" := (bind m (fun _ => k))
  (at level 100, right associativity) : py_scope.

(** [for x in l: body(x)]. *)
Fixpoint for_each {A} (l : list A) (body : A -> M unit) : M unit :=
  match l with
  | [] => ret tt
  | x :: l' => (body x ;; for_each l' body)%py
  end.

(** A [for] loop that updates a local variable [acc]. *)
Fixpoint for_acc {A S} (l : list A) (body : S -> A -> M S) (acc : S) : M S :=
  match l with
  | [] => ret acc
  | x :: l' => (acc' <- body acc x ;; for_acc l' body acc')%py
  end.

(** [print(text)]: one more text printed. *)
Definition print (text : string) : M unit :=
  fun w => (Ok tt, {| disk := disk w; stdout := stdout w ++ [text] |}).

(** [open(path, 'w')]: the file is created or truncated, or the open fails,
    which is modelled as [OSError] whatever the reason. *)
Definition open_w (fs : filesystem) (path : string) : M unit :=
  fun w =>
    if writable fs path
    then (Ok tt, {| disk := <[path := ""]> (disk w); stdout := stdout w |})
    else (Raise OSError, w).

(** [file.write(text)] on the file opened at [path]: the text is added
    to what the file holds.  The strings of the model are those the
    encoding of the file can write, so that the write itself does not
    fail. *)
Definition file_write (path text : string) : M unit :=
  fun w =>
    (Ok tt, {| disk := <[path := default "" (disk w !! path) +:+ text]> (disk w);
               stdout := stdout w |}).

(** ** [os.walk] *)

Definition is_dir (n : node) : bool :=
  match n with
  | File _ => false
  | _ => true
  end.

(** The names of the sub-directories of a listing, in its order, and its
    other entries, each with its node. *)
Definition dirs_of (entries : list (string * node)) : list string :=
  map fst (List.filter (fun e => is_dir (snd e)) entries).

Definition nondirs_of (entries : list (string * node)) : list (string * node) :=
  List.filter (fun e => negb (is_dir (snd e))) entries.

(** [os.walk(top)] with its defaults (top-down, [onerror=None], links not
    followed), on the node found at [top]: the triples (root, dirs, files)
    in the order they are yielded.  A listing that fails yields nothing and
    raises nothing. *)
Fixpoint walk (top : string) (n : node)
  : list (string * list string * list (string * node)) :=
  match n with
  | Dir entries =>
      (top, dirs_of entries, nondirs_of entries)
      :: (fix sub (es : list (string * node)) :=
            match es with
            | [] => []
            | (name, d) :: es' =>
                (if is_dir d then walk (join top name) d else []) ++ sub es'
            end) entries
  | File _ => []
  | Sealed => []
  end.

Definition os_walk (fs : filesystem) (top : string)
  : list (string * list string * list (string * node)) :=
  match resolve fs top with
  | Some n => walk top n
  | None => []
  end.

(** [os.walk(top)] as the [for] loop of its caller meets it.  The listing
    errors it ignores are the [OSError]s; for a [top] that is not a path the
    first listing raises [ValueError], which goes through to the caller
    before anything is yielded. *)
Definition iter_walk (fs : filesystem) (top : string)
  : M (list (string * list string * list (string * node))) :=
  if valid_path top then ret (os_walk fs top) else raise ValueError.

(** ** The aggregator *)

(** [get_file_content]: the path is opened and read; the node met under the
    path stands for what that gives. *)
Definition get_file_content (f : node) : M string :=
  match f with
  | File (Ok content) => ret content
  | File (Raise e) => raise e
  | _ => raise OSError
  end.

Definition extract_file_details (fs : filesystem) (folder_path : string)
  : M (list (string * string)) :=
  (walked <- iter_walk fs folder_path ;;
   for_acc walked
     (fun file_details '(root, dirs, files) =>
        for_acc files
          (fun file_details '(file_name, f) =>
             let file_path := join root file_name in
             if valid_filename file_path then
               (content <- get_file_content f ;;
                let file_details := file_details ++ [(file_path, content)] in
                print ("Extracted details from " +:+ file_name) ;;
                ret file_details)
             else ret file_details)
          file_details)
     [])%py.

Definition write_to_file (fs : filesystem)
    (file_details : list (string * string)) (output_file : string) : M unit :=
  (open_w fs output_file ;;
   for_each file_details
     (fun '(file_name, details) =>
        let ext := Str.strip "." (snd (splitext file_name)) in
        file_write output_file
          ("filename: `" +:+ file_name +:+ "`" +:+ Str.nl +:+
           "```" +:+ ext +:+ Str.nl +:+ details +:+ "```" +:+ Str.nl)))%py.

Definition create_prompt_file (fs : filesystem)
    (folder_path output_file : string) : M unit :=
  (file_details <- extract_file_details fs folder_path ;;
   write_to_file fs file_details output_file ;;
   print ("Prompt file '" +:+ output_file +:+ "' created successfully."))%py.

(** The default of the second parameter. *)
Definition default_output_file : string := "prompt.md".

(** ** The rendering as the specification words it

    For each record in order: [filename: `<path>`], a line feed, the opening
    fence followed by [<ext>], a line feed, the content, the closing fence
    right after it, a line feed.  [<ext>] is the extension of the path with
    its leading dot removed, empty when the path has no extension. *)

Definition spec_ext (path : string) : string :=
  match snd (splitext path) with
  | String "." tag => tag
  | _ => ""
  end.

Definition spec_block (record : string * string) : string :=
  let '(path, content) := record in
  "filename: `" +:+ path +:+ "`" +:+ Str.nl +:+
  "```" +:+ spec_ext path +:+ Str.nl +:+
  content +:+ "```" +:+ Str.nl.

Fixpoint spec_render (records : list (string * string)) : string :=
  match records with
  | [] => ""
  | record :: records' => spec_block record +:+ spec_render records'
  end.

(** ** Directory listings as a file system gives them

    An entry name is not empty and has no separator in it. *)

Definition wf_name (name : string) : bool :=
  negb (String.eqb name "") && negb (Str.has_char "/" name).

Fixpoint wf_node (n : node) : bool :=
  match n with
  | Dir entries =>
      (fix all (es : list (string * node)) : bool :=
         match es with
         | [] => true
         | (name, d) :: es' => wf_name name && wf_node d && all es'
         end) entries
  | File _ => true
  | Sealed => true
  end.

(** ** Sample trees *)

Definition initial : world := {| disk := ∅; stdout := [] |}.

(** Nothing exists; any path can be written. *)
Definition fs_missing : filesystem :=
  {| tree_at := fun _ => None; writable := fun _ => true |}.

(** The tree [n] at the path [top], and nothing else. *)
Definition fs_at (top : string) (n : node) : filesystem :=
  {| tree_at := fun p => if String.eqb p top then Some n else None;
     writable := fun _ => true |}.

(** A world in which an earlier output file is on disk. *)
Definition earlier : world :=
  {| disk := {["prompt.md" := "old"]}; stdout := ["hello"] |}.

Definition sample_tree : node :=
  Dir [("x.ts", File (Ok "let a=1;"));
       ("node_modules", Dir [("y.js", File (Ok "module.exports = 1;"))]);
       ("package-lock.json", File (Ok "{}"))].

(** A folder before and after a run whose output file lies in it. *)
Definition small_tree : node := Dir [("a.js", File (Ok "1"))].

Definition small_tree_with (text : string) : node :=
  Dir [("a.js", File (Ok "1")); ("out.js", File (Ok text))].

(** A folder path with a NUL character after an excluded word. *)
Definition nul_folder : string := "README" +:+ String "000" "".

Definition binary_tree : node :=
  Dir [("a.js", File (Ok "let a;"));
       ("sub", Dir [("blob.json", File (Raise UnicodeDecodeError))])].

(** ** What a walk hands to the collection

    Read off the two loops of [extract_file_details]: the records of the
    selected files of the triples in order, and the lines printed for
    them. *)

Definition selected_records
    (walked : list (string * list string * list (string * node)))
  : list (string * string) :=
  flat_map (fun '(root, _, files) =>
              flat_map (fun '(file_name, f) =>
                          match f with
                          | File (Ok content) =>
                              if valid_filename (join root file_name)
                              then [(join root file_name, content)]
                              else []
                          | _ => []
                          end) files)
           walked.

Definition progress_lines
    (walked : list (string * list string * list (string * node)))
  : list string :=
  flat_map (fun '(root, _, files) =>
              flat_map (fun '(file_name, f) =>
                          if valid_filename (join root file_name)
                          then ["Extracted details from " +:+ file_name]
                          else []) files)
           walked.

(** [holds top n path content]: in the tree [n] found at [top], going
    down through directories that can be listed, there is a file whose
    joined path is [path] and whose reading gives [content]. *)
Inductive holds : string -> node -> string -> result string -> Prop :=
| holds_file (top : string) (entries : list (string * node))
    (name : string) (content : result string) :
    In (name, File content) entries ->
    holds top (Dir entries) (join top name) content
| holds_below (top : string) (entries : list (string * node))
    (name : string) (d : node) (path : string) (content : result string) :
    In (name, d) entries ->
    holds (join top name) d path content ->
    holds top (Dir entries) path content.

(** Whether every character of [s] is [c]. *)
Fixpoint all_char (c : ascii) (s : string) : bool :=
  match s with
  | EmptyString => true
  | String a s' => Ascii.eqb a c && all_char c s'
  end.

(** A tree with a directory that cannot be listed beside a readable
    file in a nested directory. *)
Definition nested_tree : node :=
  Dir [("index.html", File (Ok "<p>hi</p>"));
       ("notes.txt", File (Raise UnicodeDecodeError));
       ("locked", Sealed);
       ("src", Dir [("app.jsx", File (Ok "export {};"));
                    (".css", File (Ok "body{}"))])].


(** * Properties *)

(** ** Strings *)

Section StringFacts.

Lemma app_nil_l (s : string) : "" +:+ s = s.
Proof. reflexivity. Qed.

Lemma app_cons (a : ascii) (s t : string) :
  String a s +:+ t = String a (s +:+ t).
Proof. reflexivity. Qed.

Lemma app_nil_r (s : string) : s +:+ "" = s.
Proof. induction s as [|a s IH]; [reflexivity|]. by rewrite app_cons, IH. Qed.

Lemma app_assoc (s t u : string) : (s +:+ t) +:+ u = s +:+ t +:+ u.
Proof.
  induction s as [|a s IH]; [reflexivity|]. by rewrite !app_cons, IH.
Qed.

Lemma app_length (s t : string) :
  String.length (s +:+ t) = String.length s + String.length t.
Proof.
  induction s as [|a s IH]; [reflexivity|]. rewrite app_cons. simpl. lia.
Qed.

(** [String.prefix] decides "starts with". *)
Lemma prefix_spec (p s : string) :
  String.prefix p s = true <-> exists r, s = p +:+ r.
Proof.
  revert s. induction p as [|a p IH]; intros s.
  - split; [intros _; by exists s | intros _; by destruct s].
  - destruct s as [|b s]; simpl.
    + split; [discriminate | intros [r Hr]; discriminate].
    + destruct (ascii_dec a b) as [->|Hab].
      * rewrite IH. split; intros [r Hr]; exists r.
        -- by rewrite app_cons, <- Hr.
        -- rewrite app_cons in Hr. congruence.
      * split; [discriminate|]. intros [r Hr]. rewrite app_cons in Hr.
        congruence.
Qed.

(** [in] decides "occurs in". *)
Lemma contains_spec (sub s : string) :
  Str.contains sub s = true <-> Str.occurs sub s.
Proof.
  unfold Str.occurs. induction s as [|c s IH]; cbn [Str.contains].
  - rewrite orb_false_r, prefix_spec. split.
    + intros [r Hr]. by exists "", r.
    + intros ([|x a] & b & Hab); [by exists b | discriminate].
  - rewrite orb_true_iff, prefix_spec, IH. split.
    + intros [[r Hr] | (a & b & Hab)].
      * by exists "", r.
      * exists (String c a), b. by rewrite app_cons, Hab.
    + intros ([|x a] & b & Hab).
      * left. by exists b.
      * right. exists a, b. rewrite app_cons in Hab. congruence.
Qed.

Lemma occurs_app_r (sub s t : string) :
  Str.occurs sub s -> Str.occurs sub (s +:+ t).
Proof.
  intros (a & b & ->). exists a, (b +:+ t). by rewrite !app_assoc.
Qed.

Lemma substring_all (s : string) :
  String.substring 0 (String.length s) s = s.
Proof. induction s as [|a s IH]; [reflexivity|]. simpl. by rewrite IH. Qed.

Lemma substring_skip (pre s : string) (k : nat) :
  String.substring (String.length pre) k (pre +:+ s) = String.substring 0 k s.
Proof. induction pre as [|a pre IH]; [reflexivity|]. by rewrite app_cons. Qed.

Lemma take_drop (i : nat) (s : string) : Str.take i s +:+ Str.drop i s = s.
Proof.
  revert s. induction i as [|i IH]; intros [|a s]; try reflexivity.
  simpl. by rewrite app_cons, IH.
Qed.

Lemma substring_drop (i : nat) (s : string) :
  i <= String.length s ->
  String.substring i (String.length s - i) s = Str.drop i s.
Proof.
  revert s. induction i as [|i IH]; intros s Hi.
  - rewrite Nat.sub_0_r, substring_all. by destruct s.
  - destruct s as [|a s]; simpl in *; [lia|]. apply IH. lia.
Qed.

(** [endswith] decides "ends with". *)
Lemma endswith_spec (s suf : string) :
  Str.endswith s suf = true <-> Str.ends_with s suf.
Proof.
  unfold Str.endswith, Str.ends_with.
  rewrite andb_true_iff, Nat.leb_le, String.eqb_eq. split.
  - intros [Hle Hsub].
    exists (Str.take (String.length s - String.length suf) s).
    replace (String.length suf) with
      (String.length s - (String.length s - String.length suf)) in Hsub at 2
      by lia.
    rewrite substring_drop in Hsub by lia.
    rewrite <- Hsub at 2. by rewrite take_drop.
  - intros [pre ->]. rewrite app_length. split; [lia|].
    replace (String.length pre + String.length suf - String.length suf)
      with (String.length pre) by lia.
    by rewrite substring_skip, substring_all.
Qed.

End StringFacts.

(** ** The selection predicate *)

Example nul_is_no_path : valid_path nul_folder = false.
Proof. reflexivity. Qed.
Example plain_is_a_path : valid_path "site/src" = true.
Proof. reflexivity. Qed.

Example valid_app : valid_filename "src/app.jsx" = true.
Proof. reflexivity. Qed.
Example valid_nm : valid_filename "src/node_modules/app.js" = false.
Proof. reflexivity. Qed.
Example valid_lock : valid_filename "package-lock.json" = false.
Proof. reflexivity. Qed.
Example valid_readme : valid_filename "README.md" = false.
Proof. reflexivity. Qed.

Lemma valid_filename_true (p : string) :
  valid_filename p = true <->
  (exists ext, In ext extensions /\ Str.ends_with p ext)
  /\ ~ Str.occurs "node_modules" p
  /\ ~ Str.occurs "package-lock" p
  /\ ~ Str.occurs "README" p.
Proof.
  unfold valid_filename.
  rewrite !andb_true_iff, !negb_true_iff, existsb_exists.
  rewrite <- !not_true_iff_false, !contains_spec.
  setoid_rewrite endswith_spec. tauto.
Qed.

(** Any excluded substring rules a path out, whatever its extension. *)
Lemma valid_filename_excluded (p : string) :
  Str.occurs "node_modules" p \/ Str.occurs "package-lock" p
  \/ Str.occurs "README" p ->
  valid_filename p = false.
Proof.
  intros H. apply not_true_iff_false. rewrite valid_filename_true. tauto.
Qed.

(** C1. For every path [p], [valid_filename p] is true exactly when [p]
    ends with one of the eight extensions [.jsx], [.js], [.ts], [.tsx],
    [.json], [.html], [.css], [.scss] and none of [node_modules],
    [package-lock], [README] occurs in [p]. *)
Theorem valid_filename_iff (p : string) :
  valid_filename p = true <->
  (exists ext,
      In ext [".jsx"; ".js"; ".ts"; ".tsx"; ".json"; ".html"; ".css"; ".scss"]
      /\ Str.ends_with p ext)
  /\ ~ Str.occurs "node_modules" p
  /\ ~ Str.occurs "package-lock" p
  /\ ~ Str.occurs "README" p.
Proof. exact (valid_filename_true p). Qed.

(** C5. The exclusion check is case-sensitive: the lower-case
    [docs/readme-notes.json] is selected, and every path in which the
    upper-case [README] occurs is excluded, whatever its extension. *)
Theorem readme_case_sensitive :
  valid_filename "docs/readme-notes.json" = true
  /\ forall p, Str.occurs "README" p -> valid_filename p = false.
Proof.
  split; [reflexivity|]. intros p H. apply valid_filename_excluded. tauto.
Qed.

Lemma readme_case_sensitive_witness :
  Str.occurs "README" "README.js" /\ valid_filename "README.js" = false.
Proof.
  assert (H : Str.occurs "README" "README.js") by (by exists "", ".js").
  split; [exact H | exact (proj2 readme_case_sensitive "README.js" H)].
Defined.

(** ** [rfind], [strip] and [splitext] *)

Section Splitext.

Local Open Scope Z_scope.

Lemma rfind_from_range (c : ascii) (s : string) (i : Z) :
  0 <= i ->
  Str.rfind_from c s i = -1
  \/ i <= Str.rfind_from c s i < i + Z.of_nat (String.length s).
Proof.
  revert i. induction s as [|a s IH]; intros i Hi; [by left|].
  cbn [Str.rfind_from String.length].
  destruct (IH (i + 1) ltac:(lia)) as [-> | Hr].
  - simpl. destruct (Ascii.eqb a c); [right; lia | by left].
  - destruct (Z.leb_spec 0 (Str.rfind_from c s (i + 1))); [right|]; lia.
Qed.

Lemma rfind_from_absent (c : ascii) (s : string) (i : Z) :
  Str.has_char c s = false -> Str.rfind_from c s i = -1.
Proof.
  revert i. induction s as [|a s IH]; intros i; [done|].
  cbn [Str.has_char Str.rfind_from]. intros [Ha Hs]%orb_false_iff.
  by rewrite IH, Ha.
Qed.

Lemma rfind_from_neg (c : ascii) (s : string) (i : Z) :
  0 <= i -> Str.rfind_from c s i < 0 -> Str.has_char c s = false.
Proof.
  revert i. induction s as [|a s IH]; intros i Hi; [done|].
  cbn [Str.has_char Str.rfind_from].
  destruct (Z.leb_spec 0 (Str.rfind_from c s (i + 1))) as [|Hneg]; [lia|].
  destruct (Ascii.eqb a c); [lia|]. intros _. apply (IH (i + 1)); lia.
Qed.

(** Where [rfind] finds [c], the rest of the string has no [c]. *)
Lemma rfind_from_found (c : ascii) (s : string) (i : Z) :
  0 <= i -> 0 <= Str.rfind_from c s i ->
  exists rest,
    Str.drop (Z.to_nat (Str.rfind_from c s i - i)) s = String c rest
    /\ Str.has_char c rest = false.
Proof.
  revert i. induction s as [|a s IH]; intros i Hi; [simpl; lia|].
  cbn [Str.rfind_from].
  destruct (Z.leb_spec 0 (Str.rfind_from c s (i + 1))) as [Hpos|Hneg].
  - intros _. destruct (IH (i + 1) ltac:(lia) Hpos) as (rest & Hd & Hn).
    exists rest. split; [|done].
    destruct (rfind_from_range c s (i + 1) ltac:(lia)) as [|Hr]; [lia|].
    replace (Z.to_nat (Str.rfind_from c s (i + 1) - i))
      with (S (Z.to_nat (Str.rfind_from c s (i + 1) - (i + 1)))) by lia.
    exact Hd.
  - destruct (Ascii.eqb_spec a c) as [->|]; [|lia]. intros _.
    exists s. rewrite Z.sub_diag. split; [done|].
    apply (rfind_from_neg c s (i + 1)); lia.
Qed.

Lemma lstrip_absent (c : ascii) (s : string) :
  Str.has_char c s = false -> Str.lstrip c s = s.
Proof.
  destruct s as [|a s]; [done|]. simpl.
  intros [-> _]%orb_false_iff. done.
Qed.

Lemma rstrip_absent (c : ascii) (s : string) :
  Str.has_char c s = false -> Str.rstrip c s = s.
Proof.
  induction s as [|a s IH]; [done|]. simpl.
  intros [Ha Hs]%orb_false_iff. rewrite (IH Hs), Ha. by destruct s.
Qed.

(** The extension [splitext] gives is empty, or a dot followed by
    characters that are not dots. *)
Lemma splitext_ext (p : string) :
  snd (splitext p) = ""
  \/ exists tag, snd (splitext p) = String "." tag
                 /\ Str.has_char "." tag = false.
Proof.
  unfold splitext.
  destruct (Z.ltb_spec (Str.rfind "/" p) (Str.rfind "." p)) as [Hlt|];
    [|by left].
  destruct (skip_leading_dots _ _ _); [|by left]. right. simpl.
  destruct (rfind_from_range "/" p 0 ltac:(lia)) as [Hs|Hs];
    unfold Str.rfind in *;
    destruct (rfind_from_found "." p 0 ltac:(lia) ltac:(lia))
      as (rest & Hd & Hn);
    rewrite Z.sub_0_r in Hd; eauto.
Qed.

(** The tag [write_to_file] computes is the extension without its
    leading dot. *)
Lemma strip_splitext (p : string) :
  Str.strip "." (snd (splitext p)) = spec_ext p.
Proof.
  unfold spec_ext. destruct (splitext_ext p) as [-> | (tag & -> & Hn)].
  - reflexivity.
  - unfold Str.strip. cbn [Str.lstrip]. rewrite Ascii.eqb_refl.
    by rewrite lstrip_absent, rstrip_absent.
Qed.

End Splitext.

(** ** Loops *)

Section Loops.

Context {A S : Type}.

(** A loop keeps what every round keeps. *)
Lemma for_acc_keeps (P : world -> Prop) (body : S -> A -> M S) :
  (forall acc x w, P w -> P (snd (body acc x w))) ->
  forall l acc w, P w -> P (snd (for_acc l body acc w)).
Proof.
  intros Hbody. induction l as [|x l IH]; intros acc w Hw; [done|].
  cbn [for_acc]. unfold bind. specialize (Hbody acc x w Hw).
  destruct (body acc x w) as [[acc'|e] w']; [by apply IH | done].
Qed.

(** When no round looks at the world to decide its result, neither does
    the loop. *)
Lemma for_acc_result (body : S -> A -> M S) :
  (forall acc x w w', fst (body acc x w) = fst (body acc x w')) ->
  forall l acc w w', fst (for_acc l body acc w) = fst (for_acc l body acc w').
Proof.
  intros Hbody. induction l as [|x l IH]; intros acc w1 w2; [done|].
  cbn [for_acc]. unfold bind. specialize (Hbody acc x w1 w2).
  destruct (body acc x w1) as [[a1|e1] w1'], (body acc x w2) as [[a2|e2] w2'];
    simplify_eq/=; [apply IH | done].
Qed.

(** Rounds that change nothing leave the loop without effect. *)
Lemma for_acc_skip (body : S -> A -> M S) (l : list A) :
  (forall x, In x l -> forall acc w, body acc x w = (Ok acc, w)) ->
  forall acc w, for_acc l body acc w = (Ok acc, w).
Proof.
  induction l as [|x l IH]; intros Hbody acc w; [done|].
  cbn [for_acc]. unfold bind. rewrite Hbody by (by left).
  apply IH. intros y Hy. apply Hbody. by right.
Qed.

(** An exception that leaves the loop was raised by one of its rounds. *)
Lemma for_acc_raised (body : S -> A -> M S) :
  forall l acc w e,
    fst (for_acc l body acc w) = Raise e ->
    exists x acc' w', In x l /\ fst (body acc' x w') = Raise e.
Proof.
  induction l as [|x l IH]; intros acc w e; [done|].
  cbn [for_acc]. unfold bind.
  destruct (body acc x w) as [[acc'|e'] w'] eqn:Hb.
  - intros (y & a & v & Hy & Hr)%IH. exists y, a, v. split; [by right|done].
  - simpl. intros [= ->]. exists x, acc, w. rewrite Hb. split; [by left|done].
Qed.

(** A round that raises in every state makes the loop raise. *)
Lemma for_acc_raises (body : S -> A -> M S) (l : list A) (x : A) :
  In x l ->
  (forall acc w, exists e, fst (body acc x w) = Raise e) ->
  forall acc w, exists e, fst (for_acc l body acc w) = Raise e.
Proof.
  intros Hin Hx. induction l as [|y l IH]; intros acc w; [done|].
  cbn [for_acc]. unfold bind.
  destruct (body acc y w) as [[acc'|e'] w'] eqn:Hb; [|by exists e'].
  destruct Hin as [-> | Hin]; [|by apply IH].
  destruct (Hx acc w) as [e He]. by rewrite Hb in He.
Qed.

End Loops.

(** ** [write_to_file] *)

Section Writing.

Variable fs : filesystem.
Variable output_file : string.

(** Each round of the loop appends the block of its record to the file. *)
Lemma write_records (records : list (string * string)) :
  forall w c,
    disk w !! output_file = Some c ->
    for_each records
      (fun '(file_name, details) =>
         let ext := Str.strip "." (snd (splitext file_name)) in
         file_write output_file
           ("filename: `" +:+ file_name +:+ "`" +:+ Str.nl +:+
            "```" +:+ ext +:+ Str.nl +:+ details +:+ "```" +:+ Str.nl)) w
    = (Ok tt, {| disk := <[output_file := c +:+ spec_render records]> (disk w);
                 stdout := stdout w |}).
Proof.
  induction records as [|[file_name details] records IH]; intros w c Hc.
  - cbn [for_each spec_render]. unfold ret. rewrite app_nil_r.
    rewrite insert_id by done. by destruct w.
  - cbn [for_each]. unfold bind, file_write. cbn zeta.
    rewrite Hc. cbn [default from_option].
    erewrite IH by (cbn [disk]; apply lookup_insert_eq).
    cbn [disk stdout]. rewrite insert_insert_eq.
    cbn [spec_render spec_block]. rewrite strip_splitext.
    by rewrite !app_assoc.
Qed.

(** The whole of [write_to_file]: the file is replaced by the rendering
    of the records, or cannot be opened. *)
Lemma write_to_file_run (records : list (string * string)) (w : world) :
  write_to_file fs records output_file w =
  if writable fs output_file
  then (Ok tt, {| disk := <[output_file := spec_render records]> (disk w);
                  stdout := stdout w |})
  else (Raise OSError, w).
Proof.
  unfold write_to_file, bind at 1, open_w.
  destruct (writable fs output_file); [|done].
  erewrite write_records by (cbn [disk]; apply lookup_insert_eq).
  cbn [disk stdout]. by rewrite insert_insert_eq, app_nil_l.
Qed.

End Writing.

(** ** The walk *)

Section Walk.

(** Induction on trees, with the hypothesis for every entry of a
    listing. *)
Lemma node_listing_ind (P : node -> Prop) :
  (forall c, P (File c)) ->
  P Sealed ->
  (forall es, Forall (fun e => P (snd e)) es -> P (Dir es)) ->
  forall n, P n.
Proof.
  intros HF HS HD. fix IH 1. intros [c|es|].
  - apply HF.
  - apply HD. induction es as [|[name d] es IHes]; constructor.
    + apply IH.
    + apply IHes.
  - apply HS.
Qed.

Lemma walk_Dir (top : string) (es : list (string * node)) :
  walk top (Dir es) =
  (top, dirs_of es, nondirs_of es)
  :: flat_map (fun '(name, d) =>
                 if is_dir d then walk (join top name) d else []) es.
Proof.
  cbn [walk]. f_equal. induction es as [|[name d] es IH]; [done|].
  cbn [flat_map]. by rewrite IH.
Qed.

Lemma wf_node_Dir (es : list (string * node)) :
  wf_node (Dir es) = true ->
  Forall (fun e => wf_name (fst e) = true /\ wf_node (snd e) = true) es.
Proof.
  induction es as [|[name d] es IH]; [constructor|].
  cbn [wf_node]. intros [[Hn Hd]%andb_true_iff Hes]%andb_true_iff.
  constructor; [done|]. by apply IH.
Qed.

(** What the walk hands over as files are files. *)
Lemma walk_files (n : node) :
  forall top root dirs files name f,
    In (root, dirs, files) (walk top n) -> In (name, f) files ->
    exists c, f = File c.
Proof.
  induction n as [c| |es IH] using node_listing_ind;
    intros top root dirs files name f; [done..|].
  rewrite walk_Dir. intros [[= <- <- <-] | Hin] Hf.
  - apply filter_In in Hf as [_ Hf]. destruct f; [eauto|done..].
  - apply in_flat_map in Hin as ([name' d] & Hd & Hin).
    rewrite Forall_forall in IH. destruct (is_dir d); [|done].
    eapply (IH (name', d)); [by apply list_elem_of_In | done..].
Qed.

Lemma wf_name_relative (name : string) :
  wf_name name = true -> Str.startswith name "/" = false.
Proof.
  unfold wf_name, Str.startswith. destruct name as [|a s]; [done|].
  cbn [Str.has_char String.prefix negb andb String.eqb].
  intros [Ha _]%negb_true_iff%orb_false_iff.
  destruct (ascii_dec "/" a) as [<-|]; [|done].
  by rewrite Ascii.eqb_refl in Ha.
Qed.

Lemma join_extends (a b : string) :
  Str.startswith b "/" = false -> exists r, join a b = a +:+ r.
Proof.
  unfold join. intros ->. destruct (_ || _); eauto.
Qed.

(** Every root the walk yields extends the path the walk started from. *)
Lemma walk_roots (n : node) :
  forall top root dirs files,
    wf_node n = true ->
    In (root, dirs, files) (walk top n) ->
    exists r, root = top +:+ r.
Proof.
  induction n as [c| |es IH] using node_listing_ind;
    intros top root dirs files Hwf; [done..|].
  rewrite walk_Dir. intros [[= <- <- <-] | Hin].
  - exists "". by rewrite app_nil_r.
  - apply in_flat_map in Hin as ([name d] & Hd & Hin).
    apply wf_node_Dir in Hwf. rewrite Forall_forall in IH, Hwf.
    apply list_elem_of_In in Hd.
    destruct (Hwf _ Hd) as [Hname Hnode]. destruct (is_dir d); [|done].
    destruct (IH _ Hd _ _ _ _ Hnode Hin) as [r ->].
    destruct (join_extends top name (wf_name_relative _ Hname)) as [r' ->].
    exists (r' +:+ r). by rewrite app_assoc.
Qed.

(** The files the walk hands over bear the names of the listings. *)
Lemma walk_names (n : node) :
  forall top root dirs files name f,
    wf_node n = true ->
    In (root, dirs, files) (walk top n) -> In (name, f) files ->
    wf_name name = true.
Proof.
  induction n as [c| |es IH] using node_listing_ind;
    intros top root dirs files name f Hwf; [done..|].
  apply wf_node_Dir in Hwf. rewrite Forall_forall in IH, Hwf.
  rewrite walk_Dir. intros [[= <- <- <-] | Hin] Hf.
  - apply filter_In in Hf as [Hf _]. apply list_elem_of_In in Hf.
    apply (Hwf _ Hf).
  - apply in_flat_map in Hin as ([name' d] & Hd & Hin).
    apply list_elem_of_In in Hd. destruct (is_dir d); [|done].
    eapply (IH _ Hd); [apply (Hwf _ Hd) | done..].
Qed.

End Walk.

(** ** [extract_file_details] and [create_prompt_file] *)

Section Collecting.

Variable fs : filesystem.
Variable folder_path : string.

(** Nothing is found, and nothing walked, at a string that is no path. *)
Lemma resolve_valid_path (n : node) :
  resolve fs folder_path = Some n -> valid_path folder_path = true.
Proof. unfold resolve. by destruct (valid_path folder_path). Qed.

Lemma os_walk_valid_path t :
  In t (os_walk fs folder_path) -> valid_path folder_path = true.
Proof.
  unfold os_walk. destruct (resolve fs folder_path) as [n|] eqn:Hres; [|done].
  intros _. by apply (resolve_valid_path n).
Qed.

(** At a path, the collection is its two loops over the triples of the
    walk; at a string that is no path, it raises before the first round. *)
Lemma extract_walk (w : world) :
  valid_path folder_path = true ->
  extract_file_details fs folder_path w
  = for_acc (os_walk fs folder_path)
      (fun file_details '(root, dirs, files) =>
         for_acc files
           (fun file_details '(file_name, f) =>
              let file_path := join root file_name in
              if valid_filename file_path then
                (content <- get_file_content f ;;
                 let file_details := file_details ++ [(file_path, content)] in
                 print ("Extracted details from " +:+ file_name) ;;
                 ret file_details)%py
              else ret file_details)
           file_details)
      [] w.
Proof.
  intros Hpath. unfold extract_file_details, iter_walk, bind at 1.
  by rewrite Hpath.
Qed.

Lemma extract_not_a_path (w : world) :
  valid_path folder_path = false ->
  extract_file_details fs folder_path w = (Raise ValueError, w).
Proof.
  intros Hpath. unfold extract_file_details, iter_walk, bind at 1.
  by rewrite Hpath.
Qed.

(** Collecting writes no file. *)
Lemma extract_keeps_disk (w : world) :
  disk (snd (extract_file_details fs folder_path w)) = disk w.
Proof.
  destruct (valid_path folder_path) eqn:Hpath;
    [rewrite extract_walk by done | by rewrite extract_not_a_path].
  apply (for_acc_keeps (fun w' => disk w' = disk w)); [|done].
  intros acc [[root dirs] files] w1 H1.
  apply (for_acc_keeps (fun w' => disk w' = disk w)); [|done].
  intros acc' [file_name f] w2 H2. cbn zeta.
  destruct (valid_filename _); [|done].
  by destruct f as [[c|e]| |].
Qed.

(** What is collected does not depend on what was written or printed
    before. *)
Lemma extract_result (w w' : world) :
  fst (extract_file_details fs folder_path w)
  = fst (extract_file_details fs folder_path w').
Proof.
  destruct (valid_path folder_path) eqn:Hpath;
    [rewrite !extract_walk by done | by rewrite !extract_not_a_path].
  apply for_acc_result.
  intros acc [[root dirs] files] w1 w2. apply for_acc_result.
  intros acc' [file_name f] w3 w4. cbn zeta.
  destruct (valid_filename _); [|done].
  by destruct f as [[c|e]| |].
Qed.

(** With no selected file on the way, nothing is collected, read or
    printed. *)
Lemma extract_nothing (w : world) :
  valid_path folder_path = true ->
  (forall root dirs files name f,
      In (root, dirs, files) (os_walk fs folder_path) ->
      In (name, f) files ->
      valid_filename (join root name) = false) ->
  extract_file_details fs folder_path w = (Ok [], w).
Proof.
  intros Hpath Hnone. rewrite extract_walk by done. apply for_acc_skip.
  intros [[root dirs] files] Hin acc w1. apply for_acc_skip.
  intros [name f] Hf acc' w2. cbn zeta.
  by rewrite (Hnone _ _ _ _ _ Hin Hf).
Qed.

(** A selected file that cannot be read makes the collection raise. *)
Lemma extract_raises (w : world) root dirs files name e :
  In (root, dirs, files) (os_walk fs folder_path) ->
  In (name, File (Raise e)) files ->
  valid_filename (join root name) = true ->
  exists e', fst (extract_file_details fs folder_path w) = Raise e'.
Proof.
  intros Hin Hf Hvalid. rewrite extract_walk by (by eapply os_walk_valid_path).
  eapply for_acc_raises; [exact Hin|]. intros acc w1. cbn beta iota.
  eapply for_acc_raises; [exact Hf|]. intros acc' w2. cbn beta iota zeta.
  rewrite Hvalid. by exists e.
Qed.

(** What the collection raises at a path was raised by reading a selected
    file. *)
Lemma extract_raised (w : world) (e : exn) :
  valid_path folder_path = true ->
  fst (extract_file_details fs folder_path w) = Raise e ->
  exists root dirs files name,
    In (root, dirs, files) (os_walk fs folder_path)
    /\ In (name, File (Raise e)) files
    /\ valid_filename (join root name) = true.
Proof.
  intros Hpath. rewrite extract_walk by done.
  intros ([[root dirs] files] & acc & w1 & Hin & Hr)%for_acc_raised.
  apply for_acc_raised in Hr as ([name f] & acc' & w2 & Hf & Hr).
  exists root, dirs, files, name. cbn zeta in Hr.
  destruct (valid_filename _) eqn:Hvalid; [|done].
  assert (exists c, f = File c) as [c ->].
  { unfold os_walk in Hin. destruct (resolve fs folder_path); [|done].
    eapply walk_files; eauto. }
  destruct c as [c|e']; [done|]. by simplify_eq/=.
Qed.

(** The three ways a run of [create_prompt_file] ends. *)
Lemma create_prompt_file_run (output_file : string) (w : world) :
  match fst (extract_file_details fs folder_path w) with
  | Raise e =>
      fst (create_prompt_file fs folder_path output_file w) = Raise e
      /\ disk (snd (create_prompt_file fs folder_path output_file w)) = disk w
  | Ok file_details =>
      if writable fs output_file then
        fst (create_prompt_file fs folder_path output_file w) = Ok tt
        /\ disk (snd (create_prompt_file fs folder_path output_file w))
           = <[output_file := spec_render file_details]> (disk w)
      else
        fst (create_prompt_file fs folder_path output_file w) = Raise OSError
        /\ disk (snd (create_prompt_file fs folder_path output_file w)) = disk w
  end.
Proof.
  pose proof (extract_keeps_disk w) as Hdisk.
  unfold create_prompt_file, bind.
  destruct (extract_file_details fs folder_path w) as [[recs|e] w1];
    cbn [fst snd] in *; [|done].
  rewrite write_to_file_run.
  destruct (writable fs output_file); cbn [fst snd disk]; by rewrite Hdisk.
Qed.

End Collecting.

(** What is collected depends on the file system through the tree found at
    the folder path only. *)
Lemma extract_same_tree (fs1 fs2 : filesystem) (folder_path : string)
    (w1 w2 : world) :
  resolve fs2 folder_path = resolve fs1 folder_path ->
  fst (extract_file_details fs2 folder_path w2)
  = fst (extract_file_details fs1 folder_path w1).
Proof.
  intros Hres. destruct (valid_path folder_path) eqn:Hpath.
  - rewrite (extract_result fs2 folder_path w2 w1).
    rewrite !extract_walk by done. unfold os_walk. by rewrite Hres.
  - by rewrite !extract_not_a_path.
Qed.

(** A folder with [x.ts], [node_modules/y.js] and [package-lock.json]:
    one record is collected, and one block written. *)
Example sample_collected :
  fst (extract_file_details (fs_at "proj" sample_tree) "proj" initial)
  = Ok [("proj/x.ts", "let a=1;")].
Proof. reflexivity. Qed.

Example sample_printed :
  stdout (snd (create_prompt_file (fs_at "proj" sample_tree) "proj" "prompt.md"
                 initial))
  = ["Extracted details from x.ts";
     "Prompt file 'prompt.md' created successfully."].
Proof. reflexivity. Qed.

Example sample_written :
  disk (snd (create_prompt_file (fs_at "proj" sample_tree) "proj" "prompt.md"
               earlier)) !! "prompt.md"
  = Some ("filename: `proj/x.ts`" +:+ Str.nl +:+ "```ts" +:+ Str.nl +:+
          "let a=1;```" +:+ Str.nl).
Proof. reflexivity. Qed.

(** ** The rendering *)

Example spec_ext_css : spec_ext "a/b.css" = "css".
Proof. reflexivity. Qed.
Example spec_ext_none : spec_ext "Makefile" = "".
Proof. reflexivity. Qed.
Example spec_ext_dotted_dir : spec_ext "a.b/c" = "".
Proof. reflexivity. Qed.

(** C2. The record [("a/b.css", "body{}")] alone is written as the path
    line, the fence tagged [css], the content and the closing fence right
    after it, each followed by a line feed where the template has one; in
    general [write_to_file] leaves in the output file the blocks of the
    records in order with nothing between them, each block being the
    [filename:] line, the opening fence with the extension minus its leading
    dot, the content, and the closing fence adjacent to the content. *)
Theorem write_to_file_format :
  (forall fs output_file w,
      writable fs output_file = true ->
      disk (snd (write_to_file fs [("a/b.css", "body{}")] output_file w))
        !! output_file
      = Some "filename: `a/b.css`
```css
body{}```
")
  /\ (forall fs records output_file w,
         writable fs output_file = true ->
         fst (write_to_file fs records output_file w) = Ok tt
         /\ disk (snd (write_to_file fs records output_file w)) !! output_file
            = Some (spec_render records))
  /\ spec_render [] = ""
  /\ (forall path content records,
         exists tag,
           (snd (splitext path) = "" /\ tag = ""
            \/ snd (splitext path) = String "." tag)
           /\ spec_render ((path, content) :: records)
              = "filename: `" +:+ path +:+ "`
```" +:+ tag +:+ "
" +:+ content +:+ "```
" +:+ spec_render records).
Proof.
  split; [|split; [|split]].
  - intros fs output_file w Hw. rewrite write_to_file_run, Hw.
    cbn [snd disk]. by rewrite lookup_insert_eq.
  - intros fs records output_file w Hw. rewrite write_to_file_run, Hw.
    cbn [fst snd disk]. by rewrite lookup_insert_eq.
  - reflexivity.
  - intros path content records. exists (spec_ext path). split.
    + unfold spec_ext.
      destruct (splitext_ext path) as [-> | (tag & -> & _)]; auto.
    + cbn [spec_render spec_block]. by rewrite !app_assoc.
Qed.

Lemma write_to_file_format_witness :
  disk (snd (write_to_file fs_missing [("a/b.css", "body{}")] "prompt.md" initial))
    !! "prompt.md"
  = Some "filename: `a/b.css`
```css
body{}```
".
Proof.
  apply (proj1 write_to_file_format fs_missing "prompt.md" initial).
  reflexivity.
Defined.

(** C6. The bytes [write_to_file] emits for a sequence of records are the
    same on every run: whatever the file system, the output path, and what
    was on disk or printed before. *)
Theorem write_to_file_deterministic
    (records : list (string * string))
    (fs1 fs2 : filesystem) (out1 out2 : string) (w1 w2 : world) :
  writable fs1 out1 = true ->
  writable fs2 out2 = true ->
  fst (write_to_file fs1 records out1 w1) = fst (write_to_file fs2 records out2 w2)
  /\ is_Some (disk (snd (write_to_file fs1 records out1 w1)) !! out1)
  /\ disk (snd (write_to_file fs1 records out1 w1)) !! out1
     = disk (snd (write_to_file fs2 records out2 w2)) !! out2.
Proof.
  intros H1 H2. rewrite !write_to_file_run, H1, H2. cbn [fst snd disk].
  rewrite !lookup_insert_eq. eauto.
Qed.

Lemma write_to_file_deterministic_witness :
  disk (snd (write_to_file fs_missing [("x.ts", "let a=1;")] "prompt.md" initial))
    !! "prompt.md"
  = disk (snd (write_to_file (fs_at "proj" sample_tree) [("x.ts", "let a=1;")]
                 "out.md" {| disk := {["out.md" := "old"]}; stdout := ["hello"] |}))
      !! "out.md".
Proof.
  apply (write_to_file_deterministic [("x.ts", "let a=1;")] fs_missing
           (fs_at "proj" sample_tree) "prompt.md" "out.md"); reflexivity.
Defined.

(** ** Runs *)

(** C3, as the code has it. For a folder path at which there is nothing,
    or a directory whose listing fails, or a regular file, the walk yields
    nothing and raises nothing: [extract_file_details] returns the empty
    list without touching the world, and [create_prompt_file], when the
    output path can be opened, completes and writes a file of length zero.
    Only a string that is no path (one with a NUL character) is refused:
    [ValueError] goes through to the caller and no file is written. *)
Theorem unlistable_folder_collects_nothing
    (fs : filesystem) (folder_path output_file : string) (w : world) :
  (valid_path folder_path = true ->
   resolve fs folder_path = None
   \/ resolve fs folder_path = Some Sealed
   \/ (exists content, resolve fs folder_path = Some (File content)) ->
   extract_file_details fs folder_path w = (Ok [], w)
   /\ (writable fs output_file = true ->
       fst (create_prompt_file fs folder_path output_file w) = Ok tt
       /\ disk (snd (create_prompt_file fs folder_path output_file w))
            !! output_file = Some ""))
  /\ (valid_path folder_path = false ->
      extract_file_details fs folder_path w = (Raise ValueError, w)
      /\ fst (create_prompt_file fs folder_path output_file w) = Raise ValueError
      /\ disk (snd (create_prompt_file fs folder_path output_file w)) = disk w).
Proof.
  pose proof (create_prompt_file_run fs folder_path output_file w) as Hrun.
  split.
  - intros Hpath Hres.
    assert (Hex : extract_file_details fs folder_path w = (Ok [], w)).
    { apply extract_nothing; [done|]. intros root dirs files name f.
      unfold os_walk. by destruct Hres as [-> | [-> | [c ->]]]. }
    split; [exact Hex|]. intros Hw.
    rewrite Hex, Hw in Hrun. cbn [fst] in Hrun. destruct Hrun as [-> ->].
    by rewrite lookup_insert_eq.
  - intros Hpath. rewrite (extract_not_a_path fs folder_path w Hpath) in *.
    by destruct Hrun as [-> ->].
Qed.

Lemma unlistable_folder_collects_nothing_witness :
  extract_file_details fs_missing "missing" initial = (Ok [], initial)
  /\ (writable fs_missing "prompt.md" = true ->
      fst (create_prompt_file fs_missing "missing" "prompt.md" initial) = Ok tt
      /\ disk (snd (create_prompt_file fs_missing "missing" "prompt.md" initial))
           !! "prompt.md" = Some "").
Proof.
  apply (proj1 (unlistable_folder_collects_nothing fs_missing "missing"
                  "prompt.md" initial)).
  - reflexivity.
  - left. reflexivity.
Defined.

(** C3, as the specification has it, fails: on a path that does not exist
    [extract_file_details] raises nothing and returns the empty list, and
    the run goes on to write the output file. *)
Lemma missing_folder_raises_nothing :
  valid_path "missing" = true
  /\ resolve fs_missing "missing" = None
  /\ fst (extract_file_details fs_missing "missing" initial) = Ok []
  /\ ~ (exists e, fst (extract_file_details fs_missing "missing" initial) = Raise e)
  /\ fst (create_prompt_file fs_missing "missing" "prompt.md" initial) = Ok tt
  /\ disk (snd (create_prompt_file fs_missing "missing" "prompt.md" initial))
       !! "prompt.md" = Some "".
Proof.
  split; [reflexivity|]. split; [reflexivity|]. split; [reflexivity|]. split.
  - intros [e He]. discriminate He.
  - split; reflexivity.
Qed.

(** C4. When a selected file on the way cannot be read or decoded, the run
    ends with the error of such a file and the disk is as it was; and
    whatever [extract_file_details] raises, [create_prompt_file] raises the
    same without opening the output file, so that what was on disk before,
    the output file included, is unchanged. *)
Theorem unreadable_file_aborts
    (fs : filesystem) (folder_path output_file : string) (w : world) :
  (forall root dirs files name e,
      In (root, dirs, files) (os_walk fs folder_path) ->
      In (name, File (Raise e)) files ->
      valid_filename (join root name) = true ->
      exists e' root' dirs' files' name',
        fst (create_prompt_file fs folder_path output_file w) = Raise e'
        /\ In (root', dirs', files') (os_walk fs folder_path)
        /\ In (name', File (Raise e')) files'
        /\ valid_filename (join root' name') = true
        /\ disk (snd (create_prompt_file fs folder_path output_file w)) = disk w)
  /\ (forall e,
         fst (extract_file_details fs folder_path w) = Raise e ->
         fst (create_prompt_file fs folder_path output_file w) = Raise e
         /\ disk (snd (create_prompt_file fs folder_path output_file w)) = disk w).
Proof.
  pose proof (create_prompt_file_run fs folder_path output_file w) as Hrun.
  split.
  - intros root dirs files name e Hin Hf Hvalid.
    destruct (extract_raises fs folder_path w _ _ _ _ _ Hin Hf Hvalid)
      as [e' He'].
    destruct (extract_raised fs folder_path w e'
                (os_walk_valid_path fs folder_path _ Hin) He')
      as (root' & dirs' & files' & name' & Hin' & Hf' & Hvalid').
    rewrite He' in Hrun. destruct Hrun as [Hr Hd].
    exists e', root', dirs', files', name'. auto.
  - intros e He. by rewrite He in Hrun.
Qed.

Lemma unreadable_file_aborts_witness :
  exists e' root' dirs' files' name',
    fst (create_prompt_file (fs_at "proj" binary_tree) "proj" "prompt.md"
           earlier) = Raise e'
    /\ In (root', dirs', files') (os_walk (fs_at "proj" binary_tree) "proj")
    /\ In (name', File (Raise e')) files'
    /\ valid_filename (join root' name') = true
    /\ disk (snd (create_prompt_file (fs_at "proj" binary_tree) "proj" "prompt.md"
                    earlier))
       = disk earlier.
Proof.
  apply (proj1 (unreadable_file_aborts (fs_at "proj" binary_tree) "proj"
                  "prompt.md" earlier)
           "proj/sub" [] [("blob.json", File (Raise UnicodeDecodeError))]
           "blob.json" UnicodeDecodeError).
  - right. left. reflexivity.
  - left. reflexivity.
  - reflexivity.
Defined.

(** C7. A second run for which the tree found at the folder path is the
    one the first run found (the directory tree is unchanged: in particular
    the output file of the first run is not among the files the second run
    collects), and which can open the output path as the first could, leaves
    the disk as the first run left it and ends as the first did; a run that
    completes has replaced the output file by the rendering of what was
    collected, whatever the file held before, so nothing is appended. *)
Theorem rerun_same_output
    (fs1 fs2 : filesystem) (folder_path output_file : string) (w : world) :
  resolve fs2 folder_path = resolve fs1 folder_path ->
  writable fs2 output_file = writable fs1 output_file ->
  let run1 := create_prompt_file fs1 folder_path output_file w in
  let run2 := create_prompt_file fs2 folder_path output_file (snd run1) in
  fst run2 = fst run1
  /\ disk (snd run2) = disk (snd run1)
  /\ (fst run1 = Ok tt ->
      exists file_details,
        fst (extract_file_details fs1 folder_path w) = Ok file_details
        /\ disk (snd run1) = <[output_file := spec_render file_details]> (disk w)).
Proof.
  intros Htree Hopen run1 run2.
  pose proof (create_prompt_file_run fs1 folder_path output_file w) as H1.
  pose proof (create_prompt_file_run fs2 folder_path output_file (snd run1)) as H2.
  rewrite (extract_same_tree fs1 fs2 folder_path w (snd run1) Htree) in H2.
  rewrite Hopen in H2. fold run1 in H1. fold run2 in H2.
  destruct (fst (extract_file_details fs1 folder_path w)) as [recs|e].
  - destruct (writable fs1 output_file).
    + destruct H1 as [Hr1 Hd1], H2 as [Hr2 Hd2].
      rewrite Hr1, Hr2, Hd2, Hd1, insert_insert_eq. eauto.
    + destruct H1 as [Hr1 Hd1], H2 as [Hr2 Hd2].
      rewrite Hr1, Hr2, Hd2. split; [done|]. split; [done|]. discriminate.
  - destruct H1 as [Hr1 Hd1], H2 as [Hr2 Hd2].
    rewrite Hr1, Hr2, Hd2. split; [done|]. split; [done|]. discriminate.
Qed.

Lemma rerun_same_output_witness :
  exists file_details,
    fst (extract_file_details (fs_at "proj" sample_tree) "proj"
           earlier) = Ok file_details
    /\ disk (snd (create_prompt_file (fs_at "proj" sample_tree) "proj" "prompt.md"
                    earlier))
       = <["prompt.md" := spec_render file_details]> (disk earlier).
Proof.
  apply (proj2 (proj2 (rerun_same_output (fs_at "proj" sample_tree)
                         (fs_at "proj" sample_tree) "proj" "prompt.md" earlier
                         eq_refl eq_refl))).
  reflexivity.
Defined.

(** When the output file lies in the folder and is selected, the second
    run finds another tree, one that holds the output of the first, and
    writes another text. *)
Example rerun_collects_own_output :
  disk (snd (create_prompt_file (fs_at "proj" small_tree) "proj" "proj/out.js"
               initial)) !! "proj/out.js"
  = Some (spec_render [("proj/a.js", "1")])
  /\ disk (snd (create_prompt_file
                  (fs_at "proj" (small_tree_with (spec_render [("proj/a.js", "1")])))
                  "proj" "proj/out.js"
                  (snd (create_prompt_file (fs_at "proj" small_tree) "proj"
                          "proj/out.js" initial)))) !! "proj/out.js"
     = Some (spec_render [("proj/a.js", "1");
                          ("proj/out.js", spec_render [("proj/a.js", "1")])]).
Proof. split; reflexivity. Qed.

(** C8. For a folder that can be listed and under which no visited file
    satisfies the selection predicate, an empty folder for one, and an
    output path that can be opened, [create_prompt_file] completes and
    leaves an output file of length zero. *)
Theorem no_match_writes_empty
    (fs : filesystem) (folder_path output_file : string) (w : world)
    (entries : list (string * node)) :
  resolve fs folder_path = Some (Dir entries) ->
  (forall root dirs files name f,
      In (root, dirs, files) (walk folder_path (Dir entries)) ->
      In (name, f) files ->
      valid_filename (join root name) = false) ->
  writable fs output_file = true ->
  fst (create_prompt_file fs folder_path output_file w) = Ok tt
  /\ exists text,
       disk (snd (create_prompt_file fs folder_path output_file w)) !! output_file
       = Some text
       /\ String.length text = 0.
Proof.
  intros Hres Hnone Hw.
  pose proof (create_prompt_file_run fs folder_path output_file w) as Hrun.
  rewrite extract_nothing, Hw in Hrun.
  - cbn [fst] in Hrun. destruct Hrun as [-> ->]. split; [done|].
    exists "". by rewrite lookup_insert_eq.
  - by apply (resolve_valid_path fs folder_path (Dir entries)).
  - unfold os_walk. rewrite Hres. exact Hnone.
Qed.

Lemma no_match_writes_empty_witness :
  fst (create_prompt_file (fs_at "empty" (Dir [])) "empty" "prompt.md" initial)
  = Ok tt
  /\ exists text,
       disk (snd (create_prompt_file (fs_at "empty" (Dir [])) "empty"
                    "prompt.md" initial)) !! "prompt.md" = Some text
       /\ String.length text = 0.
Proof.
  apply (no_match_writes_empty (fs_at "empty" (Dir [])) "empty" "prompt.md"
           initial []).
  - reflexivity.
  - intros root dirs files name f [[= <- <- <-] | []] [].
  - reflexivity.
Defined.

(** ** Paths under an excluded root *)

(** C9, as the code has it. The predicate is applied to the path joined
    from the root folder down: when [node_modules], [package-lock] or
    [README] occurs in the folder path given, and that string is a path
    (it has no NUL character), every joined path carries the word and
    [extract_file_details] returns the empty list, reading and printing
    nothing. *)
Theorem excluded_root_collects_nothing
    (fs : filesystem) (folder_path : string) (w : world) :
  valid_path folder_path = true ->
  (forall n, resolve fs folder_path = Some n -> wf_node n = true) ->
  Str.occurs "node_modules" folder_path
  \/ Str.occurs "package-lock" folder_path
  \/ Str.occurs "README" folder_path ->
  extract_file_details fs folder_path w = (Ok [], w).
Proof.
  intros Hpath Hwf Hocc. apply extract_nothing; [done|].
  intros root dirs files name f Hin Hf. unfold os_walk in Hin.
  destruct (resolve fs folder_path) as [n|] eqn:Hres; [|done].
  destruct (walk_roots n _ _ _ _ (Hwf n eq_refl) Hin) as [r ->].
  assert (Hname : Str.startswith name "/" = false).
  { eapply wf_name_relative, walk_names; eauto. }
  destruct (join_extends (folder_path +:+ r) name Hname) as [r' ->].
  apply valid_filename_excluded.
  destruct Hocc as [H | [H | H]]; [left | right; left | right; right];
    by do 2 apply occurs_app_r.
Qed.

Lemma excluded_root_collects_nothing_witness :
  valid_filename "a.js" = true
  /\ extract_file_details
       (fs_at "README_site" (Dir [("a.js", File (Ok "let a;"))]))
       "README_site" initial
     = (Ok [], initial).
Proof.
  split; [reflexivity|].
  apply (excluded_root_collects_nothing
           (fs_at "README_site" (Dir [("a.js", File (Ok "let a;"))]))
           "README_site" initial).
  - reflexivity.
  - intros n [= <-]. reflexivity.
  - right. right. by exists "", "_site".
Defined.

(** C9, as it was stated for every folder path, fails on a string that is
    no path: [README] occurs in it, yet the first listing of the walk raises
    [ValueError] and nothing is returned. *)
Lemma excluded_root_not_a_path :
  Str.occurs "README" nul_folder
  /\ (forall n, resolve fs_missing nul_folder = Some n -> wf_node n = true)
  /\ extract_file_details fs_missing nul_folder initial
     = (Raise ValueError, initial)
  /\ extract_file_details fs_missing nul_folder initial <> (Ok [], initial).
Proof.
  split; [by exists "", (String "000" "")|]. split; [discriminate|].
  split; [reflexivity | discriminate].
Qed.

(** ** A file named by an extension alone *)

Section DotFile.

Local Open Scope Z_scope.

Lemma rfind_from_app (c : ascii) (a b : string) (i : Z) :
  0 <= i ->
  Str.rfind_from c (a +:+ b) i =
  if 0 <=? Str.rfind_from c b (i + Z.of_nat (String.length a))
  then Str.rfind_from c b (i + Z.of_nat (String.length a))
  else Str.rfind_from c a i.
Proof.
  revert i. induction a as [|x a IH]; intros i Hi.
  - rewrite app_nil_l. cbn [String.length Str.rfind_from].
    rewrite Z.add_0_r.
    destruct (rfind_from_range c b i Hi) as [-> | Hr]; [reflexivity|].
    destruct (Z.leb_spec 0 (Str.rfind_from c b i)); [reflexivity | lia].
  - rewrite app_cons. cbn [Str.rfind_from String.length].
    rewrite IH by lia.
    replace (i + 1 + Z.of_nat (String.length a))
      with (i + Z.of_nat (S (String.length a))) by lia.
    destruct (0 <=? Str.rfind_from c b _) eqn:Hb; [by rewrite Hb | done].
Qed.

Lemma rfind_app_hit (c : ascii) (a rest : string) :
  Str.has_char c rest = false ->
  Str.rfind c (a +:+ String c rest) = Z.of_nat (String.length a).
Proof.
  intros Hrest. unfold Str.rfind. rewrite rfind_from_app by lia.
  cbn [Str.rfind_from]. rewrite rfind_from_absent, Ascii.eqb_refl by done.
  change (0 <=? -1) with false. cbn iota.
  destruct (Z.leb_spec 0 (0 + Z.of_nat (String.length a))); lia.
Qed.

Lemma rfind_app_miss (c : ascii) (a b : string) :
  Str.has_char c b = false ->
  Str.rfind c (a +:+ b) = Str.rfind c a.
Proof.
  intros Hb. unfold Str.rfind. rewrite rfind_from_app by lia.
  by rewrite rfind_from_absent.
Qed.

(** In [dir ++ ext], with [dir] empty or ending in the separator and
    [ext] a dot followed by neither dots nor separators, the last dot is
    the first character after the last separator. *)
Lemma splitext_dotfile (dir rest : string) :
  dir = "" \/ Str.ends_with dir "/" ->
  Str.has_char "." rest = false ->
  Str.has_char "/" rest = false ->
  splitext (dir +:+ String "." rest) = (dir +:+ String "." rest, "").
Proof.
  intros Hdir Hdot Hsep. unfold splitext.
  rewrite (rfind_app_hit "." dir rest Hdot).
  rewrite (rfind_app_miss "/" dir (String "." rest)) by done.
  assert (Hlast : Str.rfind "/" dir + 1 = Z.of_nat (String.length dir)).
  { destruct Hdir as [-> | [pre ->]]; [done|].
    rewrite (rfind_app_hit "/" pre "") by done.
    rewrite app_length. cbn [String.length]. lia. }
  rewrite Hlast, Z.sub_diag. cbn [Z.to_nat skip_leading_dots].
  by rewrite andb_false_r.
Qed.

(** Each allow-listed extension is such a dot followed by letters. *)
Lemma extensions_shape (ext : string) :
  In ext extensions ->
  exists rest, ext = String "." rest
               /\ Str.has_char "." rest = false
               /\ Str.has_char "/" rest = false.
Proof.
  unfold extensions. cbn [In].
  intros H; repeat (destruct H as [<- | H]; [eauto|]); done.
Qed.

End DotFile.

(** C10. A path whose base name is an allow-listed extension and nothing
    more, such as [.css] in any directory, passes the suffix match (and is
    selected when no excluded substring occurs in it), yet [splitext] finds
    no extension in it, so that its block opens with a fence without a
    language tag. *)
Theorem dotfile_selected_untagged (dir ext content : string) :
  In ext [".jsx"; ".js"; ".ts"; ".tsx"; ".json"; ".html"; ".css"; ".scss"] ->
  dir = "" \/ Str.ends_with dir "/" ->
  existsb (fun e => Str.endswith (dir +:+ ext) e) extensions = true
  /\ (~ Str.occurs "node_modules" (dir +:+ ext) ->
      ~ Str.occurs "package-lock" (dir +:+ ext) ->
      ~ Str.occurs "README" (dir +:+ ext) ->
      valid_filename (dir +:+ ext) = true)
  /\ splitext (dir +:+ ext) = (dir +:+ ext, "")
  /\ forall fs output_file w,
       writable fs output_file = true ->
       disk (snd (write_to_file fs [(dir +:+ ext, content)] output_file w))
         !! output_file
       = Some ("filename: `" +:+ (dir +:+ ext) +:+ "`
```
" +:+ content +:+ "```
").
Proof.
  intros Hext Hdir.
  assert (Hsuffix : exists e, In e extensions /\ Str.ends_with (dir +:+ ext) e).
  { exists ext. split; [exact Hext | by exists dir]. }
  destruct (extensions_shape ext Hext) as (rest & -> & Hdot & Hsep).
  pose proof (splitext_dotfile dir rest Hdir Hdot Hsep) as Hsplit.
  split; [|split; [|split]].
  - apply existsb_exists. destruct Hsuffix as (e & He & Hends).
    exists e. by rewrite endswith_spec.
  - intros. apply valid_filename_true. auto.
  - exact Hsplit.
  - intros fs output_file w Hw. rewrite write_to_file_run, Hw.
    cbn [snd disk]. rewrite lookup_insert_eq. f_equal.
    cbn [spec_render spec_block]. unfold spec_ext. rewrite Hsplit.
    cbn [snd]. by rewrite !app_assoc, app_nil_r.
Qed.

Lemma dotfile_selected_untagged_witness :
  valid_filename "a/.css" = true
  /\ splitext "a/.css" = ("a/.css", "")
  /\ disk (snd (write_to_file fs_missing [("a/.css", "body{}")] "prompt.md" initial))
       !! "prompt.md"
     = Some "filename: `a/.css`
```
body{}```
".
Proof.
  destruct (dotfile_selected_untagged "a/" ".css" "body{}") as (_ & Hv & Hs & Hw).
  - do 6 right. left. reflexivity.
  - right. by exists "a".
  - split; [|split].
    + apply Hv; intros H%contains_spec; discriminate H.
    + exact Hs.
    + apply (Hw fs_missing "prompt.md" initial). reflexivity.
Defined.

(** * Further properties of the code *)

(** ** What is collected, and in which order *)

Section Collected.

Context {A R : Type}.

(** A loop whose rounds either raise or append to the local list and to
    the printed lines, once it completes, has appended the contributions of
    all its rounds in order. *)
Lemma for_acc_appends (g : A -> list R) (h : A -> list string)
    (body : list R -> A -> M (list R)) (l : list A) :
  (forall x, In x l -> forall acc w,
      (exists e, fst (body acc x w) = Raise e)
      \/ body acc x w
         = (Ok (acc ++ g x), {| disk := disk w; stdout := stdout w ++ h x |})) ->
  forall acc w r,
    fst (for_acc l body acc w) = Ok r ->
    for_acc l body acc w
    = (Ok (acc ++ flat_map g l),
       {| disk := disk w; stdout := stdout w ++ flat_map h l |}).
Proof.
  induction l as [|x l IH]; intros Hbody acc w r.
  - intros _. cbn [for_acc flat_map]. unfold ret.
    rewrite !List.app_nil_r. by destruct w.
  - cbn [for_acc flat_map]. unfold bind.
    destruct (Hbody x (or_introl eq_refl) acc w) as [[e He] | Hx].
    + destruct (body acc x w) as [[a|e'] w']; by simplify_eq/=.
    + rewrite Hx. intros Hr.
      erewrite IH; [|intros y Hy; apply Hbody; by right|exact Hr].
      cbn [disk stdout]. by rewrite <- !(assoc_L (++)).
Qed.

End Collected.

Section CollectedRecords.

Variable fs : filesystem.
Variable folder_path : string.

(** A completed collection is the selected files in walk order, one line
    printed for each, and no file written. *)
Lemma extract_completed (w : world) (file_details : list (string * string)) :
  fst (extract_file_details fs folder_path w) = Ok file_details ->
  extract_file_details fs folder_path w
  = (Ok (selected_records (os_walk fs folder_path)),
     {| disk := disk w;
        stdout := stdout w ++ progress_lines (os_walk fs folder_path) |}).
Proof.
  intros Hok.
  assert (Hpath : valid_path folder_path = true).
  { destruct (valid_path folder_path) eqn:Hpath; [done|].
    by rewrite extract_not_a_path in Hok. }
  rewrite extract_walk in * by done.
  unfold selected_records, progress_lines.
  erewrite for_acc_appends with (acc := []); [reflexivity| |exact Hok].
  intros [[root dirs] files] _ acc w1.
  match goal with
  | |- context [for_acc files ?b acc w1] =>
      destruct (fst (for_acc files b acc w1)) as [r|e] eqn:Hinner
  end; [right | left; by exists e].
  eapply for_acc_appends; [|exact Hinner].
  intros [file_name f] _ acc' w2. cbn beta iota zeta.
  destruct (valid_filename (join root file_name)).
  - destruct f as [[content|e]| |]; [right; reflexivity | left..].
    + by exists e.
    + by exists OSError.
    + by exists OSError.
  - right. unfold ret.
    destruct f as [[content|e]| |]; rewrite !List.app_nil_r; by destruct w2.
Qed.

End CollectedRecords.

Section CollectedFacts.

Lemma flat_map_same_length {A B C : Type} (g : A -> list B) (h : A -> list C)
    (l : list A) :
  (forall x, In x l -> length (g x) = length (h x)) ->
  length (flat_map g l) = length (flat_map h l).
Proof.
  induction l as [|x l IH]; intros Hl; [done|].
  cbn [flat_map]. rewrite !List.length_app, (Hl x) by (by left).
  rewrite IH; [done|]. intros y Hy. apply Hl. by right.
Qed.

(** X1. When [extract_file_details] returns, the list it returns is the
    records of the selected files in the order of the walk (triple by
    triple, file by file), and it has printed, after what was printed
    before, one [Extracted details from <name>] line for each selected file
    in the same order. *)
Theorem collected_in_walk_order (fs : filesystem) (folder_path : string)
    (w : world) (file_details : list (string * string)) :
  fst (extract_file_details fs folder_path w) = Ok file_details ->
  file_details = selected_records (os_walk fs folder_path)
  /\ stdout (snd (extract_file_details fs folder_path w))
     = stdout w ++ progress_lines (os_walk fs folder_path).
Proof.
  intros Hok. pose proof (extract_completed fs folder_path w _ Hok) as Hrun.
  rewrite Hrun in Hok. rewrite Hrun. cbn [fst snd stdout] in *.
  split; [congruence | done].
Qed.

Lemma collected_in_walk_order_witness :
  [("site/index.html", "<p>hi</p>"); ("site/src/app.jsx", "export {};");
   ("site/src/.css", "body{}")]
  = selected_records (os_walk (fs_at "site" nested_tree) "site")
  /\ stdout (snd (extract_file_details (fs_at "site" nested_tree) "site" earlier))
     = stdout earlier ++ progress_lines (os_walk (fs_at "site" nested_tree) "site").
Proof.
  apply (collected_in_walk_order (fs_at "site" nested_tree) "site" earlier). reflexivity.
Defined.

(** X3. When [extract_file_details] returns, it has called [print] as
    many times as it returns records: one message for each record, no
    record without its message and no message without its record. *)
Theorem one_line_per_record (fs : filesystem) (folder_path : string)
    (w : world) (file_details : list (string * string)) :
  fst (extract_file_details fs folder_path w) = Ok file_details ->
  length (stdout (snd (extract_file_details fs folder_path w)))
  = length (stdout w) + length file_details.
Proof.
  intros Hok. pose proof (extract_completed fs folder_path w _ Hok) as Hrun.
  pose proof Hok as Hok'. rewrite Hrun in Hok'. cbn [fst] in Hok'.
  injection Hok' as <-. rewrite Hrun. cbn [snd stdout].
  rewrite List.length_app. f_equal. symmetry.
  apply flat_map_same_length. intros [[root dirs] files] Hin.
  apply flat_map_same_length. intros [file_name f] Hf. cbn beta iota.
  destruct f as [[c|e]| |].
  - by destruct (valid_filename _).
  - destruct (valid_filename _) eqn:Hvalid; [exfalso|done].
    destruct (extract_raises fs folder_path w _ _ _ _ _ Hin Hf Hvalid)
      as [e' He']. congruence.
  - exfalso. unfold os_walk in Hin. destruct (resolve fs folder_path); [|done].
    by destruct (walk_files _ _ _ _ _ _ _ Hin Hf).
  - exfalso. unfold os_walk in Hin. destruct (resolve fs folder_path); [|done].
    by destruct (walk_files _ _ _ _ _ _ _ Hin Hf).
Qed.

Lemma one_line_per_record_witness :
  length (stdout (snd (extract_file_details (fs_at "site" nested_tree) "site"
                         earlier)))
  = length (stdout earlier) + 3.
Proof.
  apply (one_line_per_record (fs_at "site" nested_tree) "site" earlier
           [("site/index.html", "<p>hi</p>"); ("site/src/app.jsx", "export {};");
            ("site/src/.css", "body{}")]).
  reflexivity.
Defined.

(** X4. Every collected path extends the folder path as it was given (a
    relative folder gives relative paths), provided the entry names of the
    listings are not empty and hold no separator. *)
Theorem collected_under_folder (fs : filesystem) (folder_path : string)
    (w : world) (file_details : list (string * string))
    (path content : string) :
  (forall n, resolve fs folder_path = Some n -> wf_node n = true) ->
  fst (extract_file_details fs folder_path w) = Ok file_details ->
  In (path, content) file_details ->
  exists rest, rest <> "" /\ path = folder_path +:+ rest.
Proof.
  intros Hwf Hok Hin.
  pose proof (extract_completed fs folder_path w _ Hok) as Hrun.
  rewrite Hrun in Hok. cbn [fst] in Hok. injection Hok as <-.
  apply in_flat_map in Hin as ([[root dirs] files] & Hin & Hrec).
  apply in_flat_map in Hrec as ([file_name f] & Hf & Hrec).
  destruct f as [[c|e]| |]; [|done..].
  destruct (valid_filename (join root file_name)); [|done].
  destruct Hrec as [[= <- <-] | []].
  unfold os_walk in Hin.
  destruct (resolve fs folder_path) as [n|] eqn:Hres; [|done].
  destruct (walk_roots n _ _ _ _ (Hwf n eq_refl) Hin) as [r ->].
  pose proof (walk_names n _ _ _ _ _ _ (Hwf n eq_refl) Hin Hf) as Hname.
  unfold join. rewrite (wf_name_relative _ Hname).
  assert (Hne : file_name <> "").
  { intros ->. discriminate Hname. }
  destruct (_ || _).
  - exists (r +:+ file_name). rewrite app_assoc. split; [|done].
    destruct r; [done | discriminate].
  - exists (r +:+ "/" +:+ file_name). rewrite !app_assoc. split; [|done].
    destruct r; discriminate.
Qed.

Lemma collected_under_folder_witness :
  exists rest, rest <> "" /\ "site/src/.css" = "site" +:+ rest.
Proof.
  apply (collected_under_folder (fs_at "site" nested_tree) "site" initial
           [("site/index.html", "<p>hi</p>"); ("site/src/app.jsx", "export {};");
            ("site/src/.css", "body{}")] "site/src/.css" "body{}").
  - unfold fs_at, resolve. intros n.
    destruct (String.eqb_spec "site" "site"); [|done].
    intros [= <-]. reflexivity.
  - reflexivity.
  - right. right. left. reflexivity.
Defined.

End CollectedFacts.

(** ** What a run leaves behind *)

Lemma spec_render_app (l1 l2 : list (string * string)) :
  spec_render (l1 ++ l2) = spec_render l1 +:+ spec_render l2.
Proof.
  induction l1 as [|r l1 IH]; [done|].
  cbn [app spec_render]. by rewrite IH, app_assoc.
Qed.

(** X6. The line [Prompt file '<output_file>' created successfully.] is
    printed exactly by the runs that complete, as the last line after those
    of the collection; a run that raises prints nothing after the lines of
    the collection. *)
Theorem completion_line
    (fs : filesystem) (folder_path output_file : string) (w : world) :
  (fst (create_prompt_file fs folder_path output_file w) = Ok tt ->
   stdout (snd (create_prompt_file fs folder_path output_file w))
   = stdout (snd (extract_file_details fs folder_path w))
     ++ ["Prompt file '" +:+ output_file +:+ "' created successfully."])
  /\ (forall e,
         fst (create_prompt_file fs folder_path output_file w) = Raise e ->
         stdout (snd (create_prompt_file fs folder_path output_file w))
         = stdout (snd (extract_file_details fs folder_path w))).
Proof.
  unfold create_prompt_file, bind.
  destruct (extract_file_details fs folder_path w) as [[recs|e] w1];
    cbn [fst snd]; [|by split].
  rewrite write_to_file_run.
  destruct (writable fs output_file); cbn [fst snd stdout]; by split.
Qed.

Lemma completion_line_witness :
  stdout (snd (create_prompt_file (fs_at "site" nested_tree) "site" "prompt.md"
                 initial))
  = stdout (snd (extract_file_details (fs_at "site" nested_tree) "site" initial))
    ++ ["Prompt file 'prompt.md' created successfully."].
Proof.
  apply (proj1 (completion_line (fs_at "site" nested_tree) "site" "prompt.md"
                  initial)).
  reflexivity.
Defined.



(** X8. Writing the records of two lists one after the other in one call
    gives the text of the first list followed by the text of the second:
    the output of [write_to_file] is made of whole blocks, one per record,
    and a block does not depend on its neighbours. *)
Theorem write_to_file_app
    (fs : filesystem) (l1 l2 : list (string * string)) (output_file : string)
    (w : world) :
  writable fs output_file = true ->
  exists text1 text2,
    disk (snd (write_to_file fs l1 output_file w)) !! output_file = Some text1
    /\ disk (snd (write_to_file fs l2 output_file w)) !! output_file = Some text2
    /\ disk (snd (write_to_file fs (l1 ++ l2) output_file w)) !! output_file
       = Some (text1 +:+ text2).
Proof.
  intros Hw. exists (spec_render l1), (spec_render l2).
  rewrite !write_to_file_run, Hw. cbn [snd disk].
  by rewrite !lookup_insert_eq, spec_render_app.
Qed.

Lemma write_to_file_app_witness :
  exists text1 text2,
    disk (snd (write_to_file fs_missing [("a.js", "1")] "prompt.md" initial))
      !! "prompt.md" = Some text1
    /\ disk (snd (write_to_file fs_missing [("b.css", "2")] "prompt.md" initial))
         !! "prompt.md" = Some text2
    /\ disk (snd (write_to_file fs_missing ([("a.js", "1")] ++ [("b.css", "2")])
                    "prompt.md" initial)) !! "prompt.md"
       = Some (text1 +:+ text2).
Proof.
  apply (write_to_file_app fs_missing [("a.js", "1")] [("b.css", "2")]
           "prompt.md" initial).
  reflexivity.
Defined.



(** ** The string functions of the library *)

Section MoreStrings.

Lemma has_char_app (c : ascii) (a b : string) :
  Str.has_char c (a +:+ b) = Str.has_char c a || Str.has_char c b.
Proof.
  induction a as [|x a IH]; [done|].
  rewrite app_cons. cbn [Str.has_char]. by rewrite IH, orb_assoc.
Qed.

Lemma take_app_length (a b : string) : Str.take (String.length a) (a +:+ b) = a.
Proof.
  induction a as [|x a IH]; [by destruct b|].
  rewrite app_cons. cbn [String.length Str.take]. by rewrite IH.
Qed.

Lemma drop_app_add (a b : string) (k : nat) :
  Str.drop (String.length a + k) (a +:+ b) = Str.drop k b.
Proof. induction a as [|x a IH]; [done|]. by rewrite app_cons. Qed.

Lemma drop_app_length (a b : string) : Str.drop (String.length a) (a +:+ b) = b.
Proof.
  rewrite <- (Nat.add_0_r (String.length a)), drop_app_add. by destruct b.
Qed.

Lemma take_length (k : nat) (s : string) :
  k <= String.length s -> String.length (Str.take k s) = k.
Proof.
  revert s. induction k as [|k IH]; intros [|a s] Hk; simpl in *; try lia.
  rewrite IH; lia.
Qed.

Lemma drop_absent (c : ascii) (k : nat) (s : string) :
  Str.has_char c s = false -> Str.has_char c (Str.drop k s) = false.
Proof.
  revert s. induction k as [|k IH]; intros [|a s]; try done.
  cbn [Str.has_char Str.drop]. intros [_ Hs]%orb_false_iff. by apply IH.
Qed.

Lemma substring_skip_add (pre s : string) (k m : nat) :
  String.substring (String.length pre + k) m (pre +:+ s) = String.substring k m s.
Proof. induction pre as [|a pre IH]; [done|]. by rewrite app_cons. Qed.

(** Where [rfind] finds [c], the string splits there. *)
Lemma rfind_split (c : ascii) (s : string) :
  (0 <= Str.rfind c s)%Z ->
  exists before after,
    s = before +:+ String c after
    /\ Z.of_nat (String.length before) = Str.rfind c s
    /\ Str.has_char c after = false.
Proof.
  intros Hpos. unfold Str.rfind in *.
  destruct (rfind_from_found c s 0 ltac:(lia) Hpos) as (after & Hd & Hn).
  destruct (rfind_from_range c s 0 ltac:(lia)) as [|Hr]; [lia|].
  rewrite Z.sub_0_r in Hd.
  exists (Str.take (Z.to_nat (Str.rfind_from c s 0)) s), after.
  rewrite <- Hd, take_drop, take_length by lia. split; [done|]. split; [lia|done].
Qed.

(** After the last [c], no [c]. *)
Lemma drop_after_rfind (c : ascii) (s : string) (k : nat) :
  (Str.rfind c s < Z.of_nat k)%Z -> Str.has_char c (Str.drop k s) = false.
Proof.
  intros Hk. destruct (Z.leb_spec 0 (Str.rfind c s)) as [Hpos|Hneg].
  - destruct (rfind_split c s Hpos) as (before & after & -> & Hlen & Hn).
    replace k with (String.length before + S (k - String.length before - 1))
      by lia.
    rewrite drop_app_add. cbn [Str.drop]. by apply drop_absent.
  - apply drop_absent. apply (rfind_from_neg c s 0); [lia | done].
Qed.

End MoreStrings.

(** X10. [rfind] answers [-1] exactly when the character does not occur;
    otherwise it answers the index of an occurrence, within the string,
    after which the character occurs no more. *)
Theorem rfind_last_occurrence (c : ascii) (s : string) :
  (Str.rfind c s = (-1)%Z <-> Str.has_char c s = false)
  /\ (Str.rfind c s <> (-1)%Z ->
      (0 <= Str.rfind c s < Z.of_nat (String.length s))%Z
      /\ exists before after,
           s = before +:+ String c after
           /\ Z.of_nat (String.length before) = Str.rfind c s
           /\ Str.has_char c after = false).
Proof.
  pose proof (rfind_from_range c s 0 ltac:(lia)) as Hrange.
  fold (Str.rfind c s) in Hrange. split.
  - split.
    + intros Hr. apply (rfind_from_neg c s 0); [lia|].
      unfold Str.rfind in Hr. lia.
    + apply rfind_from_absent.
  - intros Hne. destruct Hrange as [|Hr]; [done|].
    split; [lia|]. apply rfind_split. lia.
Qed.

Lemma rfind_last_occurrence_witness :
  (0 <= Str.rfind "." "x.tar.gz" < Z.of_nat (String.length "x.tar.gz"))%Z
  /\ exists before after,
       "x.tar.gz" = before +:+ String "." after
       /\ Z.of_nat (String.length before) = Str.rfind "." "x.tar.gz"
       /\ Str.has_char "." after = false.
Proof.
  apply (proj2 (rfind_last_occurrence "." "x.tar.gz")). discriminate.
Defined.

(** X11. [splitext] cuts the path without losing anything: the root
    followed by the extension is the path; and the extension is empty, or a
    dot followed by characters among which there is neither a dot nor a
    separator. *)
Theorem splitext_roundtrip (p : string) :
  fst (splitext p) +:+ snd (splitext p) = p
  /\ (snd (splitext p) = ""
      \/ exists tag,
           snd (splitext p) = String "." tag
           /\ Str.has_char "." tag = false
           /\ Str.has_char "/" tag = false).
Proof.
  split.
  - unfold splitext. destruct (_ && _); cbn [fst snd].
    + apply take_drop.
    + apply app_nil_r.
  - destruct (splitext_ext p) as [He | (tag & He & Hdot)]; [by left|].
    right. exists tag. split; [done|]. split; [done|].
    revert He. unfold splitext.
    destruct (Z.ltb_spec (Str.rfind "/" p) (Str.rfind "." p)) as [Hlt|];
      [|done].
    destruct (skip_leading_dots _ _ _); [|done]. cbn [andb snd]. intros He.
    assert (Hsep : Str.has_char "/" (Str.drop (Z.to_nat (Str.rfind "." p)) p)
                   = false).
    { apply drop_after_rfind.
      pose proof (rfind_from_range "/" p 0 ltac:(lia)) as Hr.
      fold (Str.rfind "/" p) in Hr. lia. }
    rewrite He in Hsep. cbn [Str.has_char] in Hsep.
    by apply orb_false_iff in Hsep as [_ ?].
Qed.

Section Strip.

Variable c : ascii.

Lemma endswith_char_cons (a : ascii) (r : string) :
  r <> "" ->
  Str.endswith (String a r) (String c "") = Str.endswith r (String c "").
Proof.
  destruct r as [|b r]; [done|]. intros _. unfold Str.endswith.
  cbn [String.length Nat.leb Nat.sub String.substring andb].
  by rewrite Nat.sub_0_r.
Qed.

Lemma lstrip_split (s : string) :
  exists l, all_char c l = true /\ s = l +:+ Str.lstrip c s.
Proof.
  induction s as [|a s (l & Hl & Hs)]; [by exists ""|].
  cbn [Str.lstrip]. destruct (Ascii.eqb_spec a c) as [->|Hne].
  - exists (String c l). cbn [all_char]. rewrite Ascii.eqb_refl, Hl.
    split; [done|]. by rewrite app_cons, <- Hs.
  - by exists "".
Qed.

Lemma lstrip_head (s : string) :
  Str.startswith (Str.lstrip c s) (String c "") = false.
Proof.
  induction s as [|a s IH]; [done|]. cbn [Str.lstrip].
  destruct (Ascii.eqb_spec a c) as [->|Hne]; [done|].
  unfold Str.startswith. cbn [String.prefix].
  destruct (ascii_dec c a); [congruence | done].
Qed.

Lemma lstrip_fixed (s : string) :
  Str.startswith s (String c "") = false -> Str.lstrip c s = s.
Proof.
  destruct s as [|a s]; [done|]. unfold Str.startswith. cbn [String.prefix Str.lstrip].
  destruct (ascii_dec c a) as [<-|Hne].
  - by destruct s.
  - intros _. destruct (Ascii.eqb_spec a c); [congruence | done].
Qed.

Lemma rstrip_split (s : string) :
  exists r, all_char c r = true /\ s = Str.rstrip c s +:+ r.
Proof.
  induction s as [|a s (r & Hr & Hs)]; [by exists ""|].
  cbn [Str.rstrip]. destruct (Str.rstrip c s) as [|b t].
  - destruct (Ascii.eqb_spec a c) as [->|Hne].
    + exists (String c r). cbn [all_char]. rewrite Ascii.eqb_refl, Hr.
      split; [done|]. rewrite app_nil_l in *. by rewrite <- Hs.
    + exists r. split; [done|]. rewrite app_nil_l in Hs. by rewrite app_cons, <- Hs.
  - exists r. split; [done|]. by rewrite app_cons, <- Hs.
Qed.

Lemma rstrip_tail (s : string) :
  Str.endswith (Str.rstrip c s) (String c "") = false.
Proof.
  induction s as [|a s IH]; [done|].
  cbn [Str.rstrip]. destruct (Str.rstrip c s) as [|b t].
  - destruct (Ascii.eqb_spec a c) as [->|Hne]; [done|].
    unfold Str.endswith. cbn.
    destruct (Ascii.eqb_spec a c); [congruence | done].
  - by rewrite endswith_char_cons.
Qed.

Lemma rstrip_fixed (s : string) :
  Str.endswith s (String c "") = false -> Str.rstrip c s = s.
Proof.
  induction s as [|a s IH]; [done|]. cbn [Str.rstrip].
  destruct s as [|b t].
  - unfold Str.endswith. cbn. by destruct (Ascii.eqb a c).
  - rewrite endswith_char_cons by done. intros Hs. by rewrite (IH Hs).
Qed.

Lemma rstrip_head (s : string) :
  Str.startswith s (String c "") = false ->
  Str.startswith (Str.rstrip c s) (String c "") = false.
Proof.
  destruct s as [|a s]; [done|]. unfold Str.startswith.
  cbn [String.prefix Str.rstrip]. destruct (ascii_dec c a) as [<-|Hne].
  - by destruct s.
  - intros _. destruct (Str.rstrip c s).
    + destruct (Ascii.eqb_spec a c); [congruence|].
      cbn [String.prefix]. by destruct (ascii_dec c a).
    + cbn [String.prefix]. by destruct (ascii_dec c a).
Qed.

End Strip.

(** X12. [strip] removes characters [c] from the two ends and nothing
    else: the string is a run of [c], then the stripped string, then a run
    of [c]; the stripped string neither starts nor ends with [c], and
    stripping it again changes nothing. *)
Theorem strip_ends (c : ascii) (s : string) :
  (exists l r,
      all_char c l = true /\ all_char c r = true
      /\ s = l +:+ Str.strip c s +:+ r)
  /\ Str.startswith (Str.strip c s) (String c "") = false
  /\ Str.endswith (Str.strip c s) (String c "") = false
  /\ Str.strip c (Str.strip c s) = Str.strip c s.
Proof.
  unfold Str.strip.
  pose proof (rstrip_head c _ (lstrip_head c s)) as Hhead.
  pose proof (rstrip_tail c (Str.lstrip c s)) as Htail.
  split; [|split; [done|split; [done|]]].
  - destruct (lstrip_split c s) as (l & Hl & Hs).
    destruct (rstrip_split c (Str.lstrip c s)) as (r & Hr & Ht).
    exists l, r. split; [done|]. split; [done|]. by rewrite <- Ht.
  - by rewrite (lstrip_fixed c _ Hhead), (rstrip_fixed c _ Htail).
Qed.

Example strip_dots : Str.strip "." "..a.b.." = "a.b".
Proof. reflexivity. Qed.

(** ** Which paths have an extension *)

Section Extension.

Local Open Scope Z_scope.

Lemma all_char_other (c d : ascii) (s : string) :
  all_char c s = true -> d <> c -> Str.has_char d s = false.
Proof.
  intros Hs Hne. induction s as [|a s IH]; [done|].
  cbn [all_char Str.has_char] in *.
  apply andb_true_iff in Hs as [Ha%Ascii.eqb_eq Hs]. subst a.
  rewrite (IH Hs), orb_false_r. apply Ascii.eqb_neq. congruence.
Qed.

Lemma all_char_snoc (c : ascii) (s : string) :
  all_char c s = true -> String c s = s +:+ String c "".
Proof.
  induction s as [|a s IH]; [done|]. cbn [all_char].
  intros [Ha%Ascii.eqb_eq Hs]%andb_true_iff. subst a.
  by rewrite app_cons, <- (IH Hs).
Qed.

Lemma all_char_app (c : ascii) (a b : string) :
  all_char c (a +:+ b) = all_char c a && all_char c b.
Proof.
  induction a as [|x a IH]; [done|].
  rewrite app_cons. cbn [all_char]. by rewrite IH, andb_assoc.
Qed.

(** The last separator of a directory prefix is its last character. *)
Lemma rfind_sep_dir (dir : string) :
  dir = "" \/ Str.ends_with dir "/" ->
  Str.rfind "/" dir + 1 = Z.of_nat (String.length dir).
Proof.
  intros [-> | [pre ->]]; [done|].
  rewrite (rfind_app_hit "/" pre "") by done.
  rewrite app_length. cbn [String.length]. lia.
Qed.

Lemma skip_leading_dots_at (dir t : string) (n : nat) :
  skip_leading_dots (dir +:+ t) (Z.of_nat (String.length dir)) (S n)
  = if negb (String.eqb (String.substring 0 1 t) ".") then true
    else skip_leading_dots (dir +:+ t) (Z.of_nat (String.length dir) + 1) n.
Proof.
  cbn [skip_leading_dots]. rewrite Nat2Z.id.
  rewrite <- (Nat.add_0_r (String.length dir)) at 1.
  by rewrite substring_skip_add.
Qed.

Lemma length_snoc (dir : string) (a : ascii) :
  Z.of_nat (String.length dir) + 1
  = Z.of_nat (String.length (dir +:+ String a "")).
Proof. rewrite app_length. cbn [String.length]. lia. Qed.

(** The loop answers [true] when a character other than a dot comes
    before the last dot ... *)
Lemma skip_leading_dots_hit (dots : string) :
  forall (dir : string) (x : ascii) (t : string) (n : nat),
    all_char "." dots = true -> x <> "."%char ->
    (String.length dots < n)%nat ->
    skip_leading_dots (dir +:+ dots +:+ String x t)
      (Z.of_nat (String.length dir)) n = true.
Proof.
  induction dots as [|d dots IH]; intros dir x t n Hdots Hx Hn.
  - destruct n as [|n]; [simpl in Hn; lia|].
    rewrite app_nil_l, skip_leading_dots_at. cbn [String.substring String.eqb].
    by destruct (Ascii.eqb_spec x ".").
  - cbn [all_char] in Hdots.
    apply andb_true_iff in Hdots as [Hd%Ascii.eqb_eq Hdots]. subst d.
    destruct n as [|n]; [simpl in Hn; lia|].
    rewrite skip_leading_dots_at. rewrite app_cons at 1.
    cbn [String.substring String.eqb negb]. rewrite Ascii.eqb_refl.
    assert (Hhead : String.eqb (String.substring 0 0 (dots +:+ String x t)) ""
                    = true) by (by destruct (dots +:+ String x t)).
    rewrite Hhead. cbn iota.
    rewrite (length_snoc dir ".").
    replace (dir +:+ String "." dots +:+ String x t)
      with ((dir +:+ String "." "") +:+ dots +:+ String x t)
      by (by rewrite app_assoc).
    apply IH; [done..|]. simpl in Hn. lia.
Qed.

(** ... and [false] when it meets only dots. *)
Lemma skip_leading_dots_miss (dots : string) :
  forall (dir t : string) (n : nat),
    all_char "." dots = true ->
    (n <= String.length dots)%nat ->
    skip_leading_dots (dir +:+ dots +:+ t) (Z.of_nat (String.length dir)) n
    = false.
Proof.
  induction dots as [|d dots IH]; intros dir t n Hdots Hn.
  - simpl in Hn. by replace n with 0%nat by lia.
  - cbn [all_char] in Hdots.
    apply andb_true_iff in Hdots as [Hd%Ascii.eqb_eq Hdots]. subst d.
    destruct n as [|n]; [done|].
    rewrite skip_leading_dots_at. rewrite app_cons at 1.
    cbn [String.substring String.eqb negb]. rewrite Ascii.eqb_refl.
    assert (Hhead : String.eqb (String.substring 0 0 (dots +:+ t)) "" = true)
      by (by destruct (dots +:+ t)).
    rewrite Hhead. cbn iota.
    rewrite (length_snoc dir ".").
    replace (dir +:+ String "." dots +:+ t)
      with ((dir +:+ String "." "") +:+ dots +:+ t)
      by (by rewrite app_assoc).
    apply IH; [done|]. simpl in Hn. lia.
Qed.

End Extension.

(** X13. A path whose base name is leading dots, then a stem that starts
    with a character other than a dot, then a dot and a last part without
    dot, is split by [splitext] before that last dot: [a/b.css] gives [.css],
    [x.tar.gz] gives [.gz], [..a.b] gives [.b], and a dot in a directory
    name plays no part. *)
Theorem splitext_extension (dir dots : string) (x : ascii) (stem rest : string) :
  dir = "" \/ Str.ends_with dir "/" ->
  all_char "." dots = true ->
  x <> "."%char ->
  Str.has_char "/" (String x stem) = false ->
  Str.has_char "." rest = false ->
  Str.has_char "/" rest = false ->
  splitext (dir +:+ dots +:+ String x stem +:+ String "." rest)
  = (dir +:+ dots +:+ String x stem, String "." rest).
Proof.
  intros Hdir Hdots Hx Hstem Hdot Hsep.
  assert (Hp : dir +:+ dots +:+ String x stem +:+ String "." rest
               = (dir +:+ dots +:+ String x stem) +:+ String "." rest)
    by (by rewrite !app_assoc).
  assert (Hd : Str.rfind "." (dir +:+ dots +:+ String x stem +:+ String "." rest)
               = Z.of_nat (String.length (dir +:+ dots +:+ String x stem))).
  { rewrite Hp. by apply rfind_app_hit. }
  assert (Hs : Str.rfind "/" (dir +:+ dots +:+ String x stem +:+ String "." rest)
               = Str.rfind "/" dir).
  { apply rfind_app_miss. rewrite !has_char_app, Hstem.
    rewrite (all_char_other "." "/" dots Hdots) by done.
    cbn [Str.has_char]. by rewrite Hsep. }
  pose proof (rfind_sep_dir dir Hdir) as Hsd.
  assert (HL : String.length (dir +:+ dots +:+ String x stem)
               = String.length dir + (String.length dots + S (String.length stem)))
    by (by rewrite !app_length).
  unfold splitext. rewrite Hd, Hs, Hsd.
  assert (Hlt : (Str.rfind "/" dir
                 <? Z.of_nat (String.length (dir +:+ dots +:+ String x stem)))%Z
                = true) by (apply Z.ltb_lt; lia).
  rewrite Hlt.
  change (String x stem +:+ String "." rest)
    with (String x (stem +:+ String "." rest)) at 1.
  rewrite skip_leading_dots_hit by (done || lia).
  cbn [andb]. rewrite Nat2Z.id, Hp.
  by rewrite take_app_length, drop_app_length.
Qed.

Lemma splitext_extension_witness :
  splitext ("my.dir/" +:+ "." +:+ String "x" ".tar" +:+ String "." "gz")
  = ("my.dir/" +:+ "." +:+ String "x" ".tar", String "." "gz").
Proof.
  apply (splitext_extension "my.dir/" "." "x" ".tar" "gz"); try reflexivity.
  - right. by exists "my.dir".
  - discriminate.
Defined.

(** X14. A path whose base name has no dot after its leading dots has no
    extension: [Makefile], [.gitignore], [..], [a.b/c] and a path that ends
    in a separator are returned whole with an empty extension. *)
Theorem splitext_no_extension (dir dots rest : string) :
  dir = "" \/ Str.ends_with dir "/" ->
  all_char "." dots = true ->
  Str.has_char "." rest = false ->
  Str.has_char "/" rest = false ->
  splitext (dir +:+ dots +:+ rest) = (dir +:+ dots +:+ rest, "").
Proof.
  intros Hdir Hdots Hdot Hsep. unfold splitext.
  assert (Hs : Str.rfind "/" (dir +:+ dots +:+ rest) = Str.rfind "/" dir).
  { apply rfind_app_miss. rewrite has_char_app, Hsep.
    by rewrite (all_char_other "." "/" dots Hdots). }
  rewrite Hs. destruct dots as [|d dots].
  - rewrite app_nil_l, (rfind_app_miss "." dir rest Hdot).
    replace (Str.rfind "/" dir <? Str.rfind "." dir)%Z with false; [done|].
    symmetry. apply Z.ltb_ge.
    destruct Hdir as [-> | [pre ->]]; [done|].
    rewrite (rfind_app_hit "/" pre "") by done.
    rewrite (rfind_app_miss "." pre "/") by done.
    pose proof (rfind_from_range "." pre 0 ltac:(lia)) as Hr.
    fold (Str.rfind "." pre) in Hr. lia.
  - pose proof Hdots as Hall. cbn [all_char] in Hdots.
    apply andb_true_iff in Hdots as [Hd%Ascii.eqb_eq Hdots']. subst d.
    rewrite (all_char_snoc "." dots Hdots').
    assert (Hp : dir +:+ (dots +:+ String "." "") +:+ rest
                 = (dir +:+ dots) +:+ String "." rest)
      by (by rewrite !app_assoc).
    rewrite Hp, (rfind_app_hit "." (dir +:+ dots) rest Hdot).
    rewrite (rfind_sep_dir dir Hdir).
    replace ((dir +:+ dots) +:+ String "." rest)
      with (dir +:+ dots +:+ String "." rest)
      by (by rewrite !app_assoc).
    rewrite skip_leading_dots_miss; [by rewrite andb_false_r | done |].
    rewrite app_length. lia.
Qed.

Lemma splitext_no_extension_witness :
  splitext ("a.b/" +:+ "." +:+ "gitignore") = ("a.b/" +:+ "." +:+ "gitignore", "").
Proof.
  apply (splitext_no_extension "a.b/" "." "gitignore"); try reflexivity.
  right. by exists "a.b".
Defined.

(** ** Joining paths *)

Section Join.

Lemma startswith_app (x y : string) :
  x <> "" -> Str.startswith (x +:+ y) "/" = Str.startswith x "/".
Proof.
  destruct x as [|a x]; [done|]. intros _. unfold Str.startswith.
  rewrite app_cons. cbn [String.prefix]. destruct (ascii_dec "/" a); [|done].
  by destruct (x +:+ y), x.
Qed.

Lemma endswith_app_sep (x y : string) :
  y <> "" -> Str.endswith (x +:+ y) "/" = Str.endswith y "/".
Proof.
  destruct y as [|b y]; [done|]. intros _. unfold Str.endswith.
  rewrite app_length. cbn [String.length].
  replace (String.length x + S (String.length y) - 1)
    with (String.length x + String.length y) by lia.
  rewrite substring_skip_add.
  replace (1 <=? String.length x + S (String.length y))%nat with true
    by (symmetry; apply Nat.leb_le; lia).
  cbn [Nat.leb Nat.sub]. by rewrite Nat.sub_0_r.
Qed.

Lemma app_eq_empty (x y : string) : x +:+ y = "" -> x = "" /\ y = "".
Proof. destruct x; [done | discriminate]. Qed.

(** A relative second component is appended, after a separator unless the
    first component is empty or brings its own. *)
Lemma join_relative (a b : string) :
  Str.startswith b "/" = false ->
  join a b
  = a +:+ (if String.eqb a "" || Str.endswith a "/" then "" else "/") +:+ b.
Proof. unfold join. intros ->. by destruct (_ || _). Qed.

Lemma join_relative_head (b c : string) :
  Str.startswith b "/" = false -> Str.startswith c "/" = false ->
  Str.startswith (join b c) "/" = false.
Proof.
  intros Hb Hc. rewrite join_relative by done.
  destruct b as [|x b]; [done|]. by rewrite startswith_app.
Qed.

End Join.

(** X15. [join] is associative: joining [a] and [b], then [c], gives what
    joining [a] with the join of [b] and [c] gives, so that the path of a
    file deep in the tree does not depend on how the walk grouped its
    components. *)
Theorem join_assoc (a b c : string) :
  join (join a b) c = join a (join b c).
Proof.
  destruct (Str.startswith c "/") eqn:Hc.
  { unfold join. by rewrite !Hc. }
  destruct (Str.startswith b "/") eqn:Hb.
  { assert (Hbc : Str.startswith (join b c) "/" = true).
    { rewrite join_relative by done. rewrite startswith_app; [done|].
      by destruct b. }
    unfold join at 2 3. by rewrite Hb, Hbc. }
  rewrite (join_relative a (join b c)) by (by apply join_relative_head).
  rewrite (join_relative a b Hb), (join_relative b c Hc).
  rewrite join_relative by done.
  set (sab := if String.eqb a "" || Str.endswith a "/" then "" else "/").
  assert (Hsep :
    (String.eqb (a +:+ sab +:+ b) "" || Str.endswith (a +:+ sab +:+ b) "/")
    = (String.eqb b "" || Str.endswith b "/")).
  { destruct b as [|x b].
    - rewrite !app_nil_r. cbn [String.eqb orb]. subst sab.
      destruct (String.eqb a "" || Str.endswith a "/") eqn:Ha.
      + by rewrite app_nil_r.
      + rewrite endswith_app_sep by done. apply orb_true_r.
    - rewrite <- app_assoc, endswith_app_sep by done.
      destruct (String.eqb_spec ((a +:+ sab) +:+ String x b) "") as [He|_];
        [|done].
      by apply app_eq_empty in He as [_ ?]. }
  rewrite Hsep. by rewrite !app_assoc.
Qed.

Example join_nested : join (join "site" "src") "app.jsx" = "site/src/app.jsx".
Proof. reflexivity. Qed.

(** ** Selection and tags *)

Section Selection.

(** Two ways of cutting one string overlap. *)
Lemma app_eq_app (x u a v : string) :
  x +:+ u = a +:+ v ->
  (exists m, a = x +:+ m /\ u = m +:+ v)
  \/ (exists m, x = a +:+ m /\ v = m +:+ u).
Proof.
  revert a. induction x as [|h x IH]; intros a Heq.
  - left. by exists a.
  - destruct a as [|h' a].
    + right. by exists (String h x).
    + rewrite !app_cons in Heq. injection Heq as <- Heq.
      destruct (IH a Heq) as [(m & -> & ->) | (m & -> & ->)];
        [left | right]; by exists m.
Qed.

Lemma occurs_app_l (sub s t : string) :
  Str.occurs sub t -> Str.occurs sub (s +:+ t).
Proof.
  intros (a & b & ->). exists (s +:+ a), b. by rewrite !app_assoc.
Qed.

(** A string without [c] occurs in [a], [c], [b] put together only if it
    occurs in [a] or in [b]. *)
Lemma occurs_around (c : ascii) (sub a b : string) :
  sub <> "" -> Str.has_char c sub = false ->
  Str.occurs sub (a +:+ String c b) <-> Str.occurs sub a \/ Str.occurs sub b.
Proof.
  intros Hne Hc. split.
  - intros (x & y & Heq). symmetry in Heq.
    apply app_eq_app in Heq as [(m & -> & Heq) | (m & -> & Heq)].
    + apply app_eq_app in Heq as [(m' & -> & ->) | (m' & -> & Heq)].
      * left. by exists x, m'.
      * destruct m' as [|h m'].
        -- left. exists x, "". by rewrite !app_nil_r.
        -- rewrite app_cons in Heq. injection Heq as <- _.
           rewrite has_char_app in Hc. cbn [Str.has_char] in Hc.
           rewrite Ascii.eqb_refl, orb_true_r in Hc. discriminate.
    + destruct m as [|h m].
      * rewrite app_nil_l in Heq. destruct sub as [|h sub]; [done|].
        rewrite app_cons in Heq. injection Heq as <- _.
        cbn [Str.has_char] in Hc. by rewrite Ascii.eqb_refl in Hc.
      * rewrite app_cons in Heq. injection Heq as <- ->. right. by exists m, y.
  - intros [H | H]; [by apply occurs_app_r | ].
    apply occurs_app_l. destruct H as (x & y & ->).
    by exists (String c x), y.
Qed.

(** A suffix without [c] of [a], [c], [b] put together is a suffix of
    [b]. *)
Lemma ends_with_after (c : ascii) (suf a b : string) :
  Str.has_char c suf = false ->
  Str.ends_with (a +:+ String c b) suf <-> Str.ends_with b suf.
Proof.
  intros Hc. split.
  - intros [pre Heq].
    apply app_eq_app in Heq as [(m & -> & Heq) | (m & -> & ->)].
    + destruct m as [|h m].
      * rewrite app_nil_l in Heq. subst suf.
        cbn [Str.has_char] in Hc. by rewrite Ascii.eqb_refl in Hc.
      * rewrite app_cons in Heq. injection Heq as <- ->. by exists m.
    + rewrite has_char_app in Hc. cbn [Str.has_char] in Hc.
      rewrite Ascii.eqb_refl, orb_true_r in Hc. discriminate.
  - intros [pre ->]. exists (a +:+ String c pre). by rewrite !app_assoc.
Qed.

Lemma occurs_empty (sub : string) : sub <> "" -> ~ Str.occurs sub "".
Proof.
  intros Hne (a & b & Heq). symmetry in Heq.
  apply app_eq_empty in Heq as [_ Heq].
  by apply app_eq_empty in Heq as [? _].
Qed.

(** The three forms of a joined path. *)
Lemma join_forms (root name : string) :
  Str.startswith name "/" = false ->
  (root = "" /\ join root name = name)
  \/ (exists r, root = r +:+ "/" /\ join root name = r +:+ String "/" name)
  \/ (~ Str.ends_with root "/" /\ join root name = root +:+ String "/" name).
Proof.
  intros Hname. unfold join. rewrite Hname.
  destruct (String.eqb_spec root "") as [->|Hne]; [by left|]. right. cbn [orb].
  destruct (Str.endswith root "/") eqn:Hend.
  - left. apply endswith_spec in Hend as [r ->]. exists r.
    split; [done|]. by rewrite app_assoc.
  - right. split; [|done]. rewrite <- endswith_spec. congruence.
Qed.

End Selection.

Section SelectionAcrossJoin.

Variables root name : string.
Hypothesis Hname : Str.startswith name "/" = false.

Lemma occurs_join (sub : string) :
  sub <> "" -> Str.has_char "/" sub = false ->
  Str.occurs sub (join root name) <-> Str.occurs sub root \/ Str.occurs sub name.
Proof.
  intros Hne Hsep. pose proof (occurs_empty sub Hne) as Hempty.
  destruct (join_forms root name Hname)
    as [[-> ->] | [(r & -> & ->) | [_ ->]]].
  - tauto.
  - rewrite !(occurs_around "/" sub r) by done. tauto.
  - by apply occurs_around.
Qed.

Lemma ends_with_join (ext : string) :
  Str.has_char "/" ext = false ->
  Str.ends_with (join root name) ext <-> Str.ends_with name ext.
Proof.
  intros Hsep.
  destruct (join_forms root name Hname)
    as [[-> ->] | [(r & -> & ->) | [_ ->]]]; [done|by apply ends_with_after..].
Qed.

End SelectionAcrossJoin.

(** X16. For an entry name of a listing (not empty, without separator)
    joined to any root, the joined path is selected exactly when the name
    alone would be and none of [node_modules], [package-lock], [README]
    occurs in the root: the extension is looked for in the name only, and
    an excluded word cannot arise across the separator. *)
Theorem selected_across_join (root name : string) :
  wf_name name = true ->
  valid_filename (join root name)
  = valid_filename name
    && negb (Str.contains "node_modules" root)
    && negb (Str.contains "package-lock" root)
    && negb (Str.contains "README" root).
Proof.
  intros Hname%wf_name_relative. apply eq_iff_eq_true.
  rewrite !andb_true_iff, !valid_filename_true, !negb_true_iff.
  rewrite <- !not_true_iff_false, !contains_spec.
  rewrite !(occurs_join root name Hname) by done.
  assert (Hext : (exists ext, In ext extensions
                              /\ Str.ends_with (join root name) ext)
                 <-> (exists ext, In ext extensions /\ Str.ends_with name ext)).
  { split; intros (ext & Hin & Hends); exists ext; (split; [done|]);
      destruct (extensions_shape ext Hin) as (rest & -> & _ & Hsep);
      apply (ends_with_join root name Hname (String "." rest));
      try done; cbn [Str.has_char]; by rewrite Hsep. }
  rewrite Hext. tauto.
Qed.

Lemma selected_across_join_witness :
  valid_filename (join "site/node_modules" "app.js")
  = valid_filename "app.js"
    && negb (Str.contains "node_modules" "site/node_modules")
    && negb (Str.contains "package-lock" "site/node_modules")
    && negb (Str.contains "README" "site/node_modules").
Proof.
  apply (selected_across_join "site/node_modules" "app.js"). reflexivity.
Defined.

Lemma splitext_suffix (pre rest : string) :
  Str.has_char "." rest = false ->
  snd (splitext (pre +:+ String "." rest)) = ""
  \/ snd (splitext (pre +:+ String "." rest)) = String "." rest.
Proof.
  intros Hdot. unfold splitext. rewrite (rfind_app_hit "." pre rest Hdot).
  destruct (_ && _); [right | by left].
  cbn [snd]. by rewrite Nat2Z.id, drop_app_length.
Qed.

(** X17. The tag [write_to_file] puts after the opening fence of a
    selected path is the name of one of the eight extensions, or empty:
    whatever dots the path has, no other tag is written for a selected
    file. *)
Theorem selected_tag (p : string) :
  valid_filename p = true ->
  In (Str.strip "." (snd (splitext p)))
     [""; "jsx"; "js"; "ts"; "tsx"; "json"; "html"; "css"; "scss"].
Proof.
  intros ((ext & Hin & pre & ->) & _)%valid_filename_true.
  rewrite strip_splitext. unfold spec_ext.
  destruct (extensions_shape ext Hin) as (rest & -> & Hdot & _).
  destruct (splitext_suffix pre rest Hdot) as [-> | ->]; [by left|].
  right. unfold extensions in Hin. cbn [In] in Hin.
  repeat (destruct Hin as [[= <-] | Hin]; [cbn [In]; tauto|]). done.
Qed.

Lemma selected_tag_witness :
  In (Str.strip "." (snd (splitext "site/src/app.min.js")))
     [""; "jsx"; "js"; "ts"; "tsx"; "json"; "html"; "css"; "scss"].
Proof.
  apply (selected_tag "site/src/app.min.js"). reflexivity.
Defined.

(** ** What the walk visits *)

(** The files of the triples are the files the tree holds. *)
Lemma walk_holds (n : node) (top path : string) (content : result string) :
  (exists root dirs files name,
      In (root, dirs, files) (walk top n)
      /\ In (name, File content) files
      /\ path = join root name)
  <-> holds top n path content.
Proof.
  split.
  - revert top. induction n as [c| |es IH] using node_listing_ind;
      intros top (root & dirs & files & name & Hin & Hf & ->); [done..|].
    rewrite walk_Dir in Hin. destruct Hin as [[= <- <- <-] | Hin].
    + apply filter_In in Hf as [Hf _]. by apply holds_file.
    + apply in_flat_map in Hin as ([name' d] & Hd & Hin).
      destruct (is_dir d); [|done].
      apply (holds_below top es name' d); [done|].
      rewrite Forall_forall in IH.
      apply (IH (name', d)); [by apply list_elem_of_In|].
      by exists root, dirs, files, name.
  - induction 1 as [top es name c Hin | top es name d path c Hin Hd IH].
    + exists top, (dirs_of es), (nondirs_of es), name.
      rewrite walk_Dir. split; [by left|]. split; [|done].
      by apply filter_In.
    + destruct IH as (root & dirs & files & name' & Hw & Hf & ->).
      exists root, dirs, files, name'. split; [|done].
      rewrite walk_Dir. right. apply in_flat_map. exists (name, d).
      split; [done|]. by destruct d.
Qed.

(** X18. The walk hands over exactly the files the tree holds under the
    directories it can list, each in the triple of its own directory: a
    file is visited with a joined path when, and only when, the tree holds
    a file at that path; nothing below a directory that cannot be listed is
    visited, and nothing is left out elsewhere. *)
Theorem walk_visits (n : node) (top path : string) (content : result string) :
  (exists root dirs files name,
      In (root, dirs, files) (walk top n)
      /\ In (name, File content) files
      /\ path = join root name)
  <-> holds top n path content.
Proof. exact (walk_holds n top path content). Qed.

Lemma walk_visits_witness :
  exists root dirs files name,
    In (root, dirs, files) (walk "site" nested_tree)
    /\ In (name, File (Ok "export {};")) files
    /\ "site/src/app.jsx" = join root name.
Proof.
  apply (proj2 (walk_visits nested_tree "site" "site/src/app.jsx"
                  (Ok "export {};"))).
  apply (holds_below "site" _ "src"
           (Dir [("app.jsx", File (Ok "export {};")); (".css", File (Ok "body{}"))])).
  - do 3 right. left. reflexivity.
  - apply (holds_file "site/src" _ "app.jsx" (Ok "export {};")).
    left. reflexivity.
Defined.

(** X2. When [extract_file_details] returns, a pair (path, content) is in
    the list exactly when the folder path leads to a tree that holds, under
    directories that can be listed, a file at this path with this content,
    and the path satisfies [valid_filename]: nothing that is not selected is
    collected, and no selected file is left out. *)
Theorem collected_exactly (fs : filesystem) (folder_path : string) (w : world)
    (file_details : list (string * string)) (path content : string) :
  fst (extract_file_details fs folder_path w) = Ok file_details ->
  In (path, content) file_details <->
  exists n,
    resolve fs folder_path = Some n
    /\ holds folder_path n path (Ok content)
    /\ valid_filename path = true.
Proof.
  intros Hok. pose proof (extract_completed fs folder_path w _ Hok) as Hrun.
  rewrite Hrun in Hok. cbn [fst] in Hok. injection Hok as <-.
  unfold selected_records, os_walk. rewrite in_flat_map. split.
  - intros ([[root dirs] files] & Hin & Hrec).
    destruct (resolve fs folder_path) as [n|]; [|done]. exists n.
    apply in_flat_map in Hrec as ([file_name f] & Hf & Hrec).
    destruct f as [[c|e]| |]; [|done..].
    destruct (valid_filename (join root file_name)) eqn:Hvalid; [|done].
    destruct Hrec as [[= <- <-] | []]. split; [done|]. split; [|done].
    apply walk_holds. by exists root, dirs, files, file_name.
  - intros (n & -> & Hholds & Hvalid).
    apply walk_holds in Hholds as (root & dirs & files & name & Hin & Hf & ->).
    exists (root, dirs, files). split; [done|].
    apply in_flat_map. exists (name, File (Ok content)).
    split; [done|]. rewrite Hvalid. by left.
Qed.

Lemma collected_exactly_witness :
  In ("site/src/app.jsx", "export {};")
     [("site/index.html", "<p>hi</p>"); ("site/src/app.jsx", "export {};");
      ("site/src/.css", "body{}")]
  <-> exists n,
        resolve (fs_at "site" nested_tree) "site" = Some n
        /\ holds "site" n "site/src/app.jsx" (Ok "export {};")
        /\ valid_filename "site/src/app.jsx" = true.
Proof.
  apply (collected_exactly (fs_at "site" nested_tree) "site" initial).
  reflexivity.
Defined.

(** ** The shape of the output *)

Lemma spec_render_ends (records : list (string * string)) :
  records <> [] -> Str.ends_with (spec_render records) ("```" +:+ Str.nl).
Proof.
  induction records as [|[path content] records IH]; [done|]. intros _.
  cbn [spec_render spec_block]. destruct records as [|r records].
  - exists ("filename: `" +:+ path +:+ "`" +:+ Str.nl +:+ "```" +:+ spec_ext path
            +:+ Str.nl +:+ content).
    cbn [spec_render]. by rewrite !app_assoc, app_nil_r.
  - destruct IH as [pre Hpre]; [done|]. rewrite Hpre.
    eexists. by rewrite <- !app_assoc.
Qed.

(** X19. A file written for at least one record starts with
    [filename: `] followed by the path of the first record, and ends with a
    closing fence and a line feed; written for no record, it is empty. *)
Theorem output_shape (fs : filesystem) (records : list (string * string))
    (output_file : string) (w : world) :
  writable fs output_file = true ->
  exists text,
    disk (snd (write_to_file fs records output_file w)) !! output_file
    = Some text
    /\ match records with
       | [] => text = ""
       | (path, _) :: _ =>
           Str.startswith text ("filename: `" +:+ path +:+ "`") = true
           /\ Str.endswith text "```
" = true
       end.
Proof.
  intros Hw. exists (spec_render records).
  rewrite write_to_file_run, Hw. cbn [snd disk]. rewrite lookup_insert_eq.
  split; [done|]. destruct records as [|[path content] records]; [done|].
  split.
  - unfold Str.startswith. apply prefix_spec. cbn [spec_render spec_block].
    eexists. by rewrite !app_assoc.
  - apply endswith_spec. by apply (spec_render_ends ((path, content) :: records)).
Qed.

Lemma output_shape_witness :
  exists text,
    disk (snd (write_to_file fs_missing [("a.js", "1"); ("b.css", "2")]
                 "prompt.md" initial)) !! "prompt.md" = Some text
    /\ Str.startswith text ("filename: `" +:+ "a.js" +:+ "`") = true
    /\ Str.endswith text "```
" = true.
Proof.
  apply (output_shape fs_missing [("a.js", "1"); ("b.css", "2")] "prompt.md"
           initial).
  reflexivity.
Defined.
